(** * AlignClouds: affine alignment of point clouds (src/aligner.py)

    A shallow embedding of the numeric code of [AlignClouds] together with
    the properties stated about it.

    - Arrays are modelled as numpy has them: a 2-D array is its column count
      and its list of rows, a 1-D array is a list; slicing, reshaping,
      transposition, [np.dot], broadcasting and slice assignment are written
      out with the shape checks numpy performs ([ValueError], [IndexError]).
    - Scalars are an arbitrary carrier [F] with the operations the code uses
      (the source computes in float64).  Structural results hold for every
      carrier; results that depend on arithmetic identities name the laws
      they use (a commutative ring, or an ordered ring), i.e. they are
      statements about exact arithmetic.  Where rounding, signed zeros or
      the non-finite values decide a property, the carrier is IEEE 754
      binary64 itself ([Binary64]).
    - [KDTree] and [minimize] are imported by the source from a numeric
      library; they are parameters of the development, with a linear scan
      and a zero-step minimiser as executable instances.  Two contracts
      constrain them: what the code relies on in exact arithmetic
      ([IndexContract], [MinimizerContract]), and what holds whatever the
      values, an index being free to refuse a query ([IndexAnswers],
      [MinimizerAnswers]). *)

From Stdlib Require Import ZArith Lia Ring_theory Ring OrderedRing.
From Stdlib Require Import QArith Qcanon.
From Stdlib Require Import SpecFloat.
From Stdlib Require ZMicromega.
From stdpp Require Import base option list gmap.

Local Open Scope nat_scope.

(** ** Exceptions and results *)

(** The exceptions numpy raises on the paths of this file. *)
Inductive exn : Set :=
| ValueError   (* shapes that cannot be reshaped, multiplied or broadcast *)
| IndexError.  (* an index outside an axis *)

Inductive result (A : Type) : Type :=
| Ok (a : A)
| Raise (e : exn).
Arguments Ok {A} a.
Arguments Raise {A} e.

#[global] Instance result_ret : MRet result := fun A a => Ok a.
#[global] Instance result_bind : MBind result := fun A B f m =>
  match m with
  | Ok a => f a
  | Raise e => Raise e
  end.

(** A call fails when it raises, whatever the exception. *)
Definition fails {A} (r : result A) : Prop := exists e, r = Raise e.
Definition succeeds {A} (r : result A) : Prop := exists a, r = Ok a.

(** ** Scalars *)

Class Scalar (F : Type) : Type := {
  zero : F;
  one : F;
  add : F -> F -> F;
  sub : F -> F -> F;
  mul : F -> F -> F;
  div : F -> F -> F;
  opp : F -> F;
  of_nat : nat -> F;
  leb : F -> F -> bool
}.

Definition le {F : Type} {SF : Scalar F} (x y : F) : Prop := leb x y = true.
Definition lt {F : Type} {SF : Scalar F} (x y : F) : Prop := leb y x = false.

(** The integers, used to run the model on concrete clouds. *)
#[global] Instance Z_scalar : Scalar Z := {|
  zero := 0%Z; one := 1%Z;
  add := Z.add; sub := Z.sub; mul := Z.mul; div := Z.div; opp := Z.opp;
  of_nat := Z.of_nat; leb := Z.leb
|}.

(** ** Arrays *)

Section Arrays.
Context {F : Type} {SF : Scalar F}.

(** A 2-D array of shape [(length rows, ncols)]. *)
Record ndarray : Type := Array2 { ncols : nat; rows : list (list F) }.

Definition nrows (a : ndarray) : nat := length (rows a).

(** Every row has the declared number of columns. *)
Definition wf (a : ndarray) : Prop :=
  Forall (fun r => length r = ncols a) (rows a).

(** [a[:, :3]] *)
Definition cols3 (a : ndarray) : ndarray :=
  Array2 (min 3 (ncols a)) (map (take 3) (rows a)).

(** [np.sum] of a sequence: the accumulator starts at the first item. *)
Definition vsum (l : list F) : F :=
  match l with
  | [] => zero
  | x :: t => foldl add x t
  end.

Definition vdot (u v : list F) : F := vsum (zip_with mul u v).

Definition column (j : nat) (a : ndarray) : list F :=
  map (fun r => nth j r zero) (rows a).

(** [a.T] *)
Definition transpose (a : ndarray) : ndarray :=
  Array2 (nrows a) (map (fun j => column j a) (seq 0 (ncols a))).

Fixpoint chunks (k n : nat) (v : list F) : list (list F) :=
  match n with
  | 0 => []
  | S n' => take k v :: chunks k n' (drop k v)
  end.

(** [np.reshape(v, (n, k))] of a 1-D array, row-major. *)
Definition reshape (n k : nat) (v : list F) : result ndarray :=
  if decide (length v = n * k) then Ok (Array2 k (chunks k n v))
  else Raise ValueError.

(** [np.dot(a, b)] of two 2-D arrays. *)
Definition dot (a b : ndarray) : result ndarray :=
  if decide (ncols a = nrows b)
  then Ok (Array2 (ncols b)
             (map (fun r => map (vdot r) (rows (transpose b))) (rows a)))
  else Raise ValueError.

(** Broadcasting of one axis: equal lengths, or one of them is 1. *)
Definition bdim (m n : nat) : option nat :=
  if decide (m = n) then Some m
  else if decide (m = 1) then Some n
  else if decide (n = 1) then Some m
  else None.

(** Stretch an axis of declared length [d] to length [n]. *)
Definition stretch {A} (n d : nat) (l : list A) : list A :=
  if decide (d = n) then l
  else match l with
       | x :: _ => replicate n x
       | [] => []
       end.

Definition broadcast_to (n k : nat) (a : ndarray) : list (list F) :=
  stretch n (nrows a) (map (stretch k (ncols a)) (rows a)).

(** An elementwise binary operation on 2-D arrays. *)
Definition binop (op : F -> F -> F) (a b : ndarray) : result ndarray :=
  match bdim (nrows a) (nrows b), bdim (ncols a) (ncols b) with
  | Some n, Some k =>
      Ok (Array2 k (zip_with (zip_with op)
                      (broadcast_to n k a) (broadcast_to n k b)))
  | _, _ => Raise ValueError
  end.

(** The same on 1-D arrays. *)
Definition binop1 (op : F -> F -> F) (u v : list F) : result (list F) :=
  match bdim (length u) (length v) with
  | Some n => Ok (zip_with op (stretch n (length u) u)
                              (stretch n (length v) v))
  | None => Raise ValueError
  end.

(** A 1-D array seen as a 2-D operand: shape [(1, length v)]. *)
Definition row_vector (v : list F) : ndarray := Array2 (length v) [v].

(** [t[:, :3] = v]: [v] is broadcast to the shape of the slice. *)
Definition setitem_cols3 (t v : ndarray) : result ndarray :=
  let k := min 3 (ncols t) in
  if decide ((nrows v = nrows t \/ nrows v = 1) /\ (ncols v = k \/ ncols v = 1))
  then Ok (Array2 (ncols t)
             (zip_with (fun r w => w ++ drop 3 r)
                (rows t) (broadcast_to (nrows t) k v)))
  else Raise ValueError.

(** [b[idx, :3]]: the rows picked by an index array, first three columns. *)
Definition take_rows3 (b : ndarray) (idx : list nat) : result ndarray :=
  match mapM (fun j => rows b !! j) idx with
  | Some rs => Ok (Array2 (min 3 (ncols b)) (map (take 3) rs))
  | None => Raise IndexError
  end.

(** [np.add.reduce(a, axis=0)]: the rows are added up elementwise; of no
    rows, the result is a row of zeros. *)
Definition sum0 (a : ndarray) : list F :=
  match rows a with
  | [] => replicate (ncols a) zero
  | r :: rs => foldl (zip_with add) r rs
  end.

(** [np.mean(a, axis=0)] *)
Definition mean0 (a : ndarray) : list F :=
  map (fun s => div s (of_nat (nrows a))) (sum0 a).

(** [np.eye(n)] *)
Definition eye (n : nat) : ndarray :=
  Array2 n (map (fun i => map (fun j => if decide (i = j) then one else zero)
                             (seq 0 n)) (seq 0 n)).

(** [a.reshape((-1,))] *)
Definition flatten (a : ndarray) : list F := concat (rows a).

(** Squared Euclidean distance of two points. *)
Definition sqdist (p q : list F) : F :=
  vsum (zip_with (fun a b => mul (sub a b) (sub a b)) p q).

(** ** [AlignClouds.transform_points] *)

Definition transform_points (points : ndarray) (params : list F)
  : result ndarray :=
  affine_matrix ← reshape 3 3 (take 9 params);
  let translation_vector := drop (length params - 3) params in
  let transformed_points := points in (* a copy: see [Store] below *)
  prod ← dot (cols3 points) (transpose affine_matrix);
  v ← binop add prod (row_vector translation_vector);
  setitem_cols3 transformed_points v.

End Arrays.

Arguments ndarray F : clear implicits.


(** ** The object store: [points.copy()] and assignment in place *)

(** [transform_points] is the one place where the source writes into an
    array.  Here arrays live in a store and are passed by reference, so that
    what the write touches can be stated. *)
Module Store.
Section Store.
Context {F : Type} {SF : Scalar F}.

Definition loc : Type := positive.

#[global] Instance ndarray_inhabited : Inhabited (ndarray F) :=
  populate (Array2 0 []).

(** A computation reads and writes the store and may raise. *)
Definition M (A : Type) : Type :=
  gmap loc (ndarray F) -> result A * gmap loc (ndarray F).

#[global] Instance M_ret : MRet M := fun A a σ => (Ok a, σ).
#[global] Instance M_bind : MBind M := fun A B f m σ =>
  match m σ with
  | (Ok a, σ') => f a σ'
  | (Raise e, σ') => (Raise e, σ')
  end.

(** A computation on array values, which touches no object. *)
Definition lift {A} (r : result A) : M A := fun σ => (r, σ).

(** Reading the array an object holds. *)
Definition load (a : loc) : M (ndarray F) := fun σ => (Ok (σ !!! a), σ).

(** [a.copy()]: a new object with the contents of [a]. *)
Definition copy (a : loc) : M loc := fun σ =>
  let l := fresh (dom σ) in (Ok l, <[l := σ !!! a]> σ).

(** [t[:, :3] = v], writing into the object [t]. *)
Definition setitem (t : loc) (v : ndarray F) : M unit := fun σ =>
  match setitem_cols3 (σ !!! t) v with
  | Ok t' => (Ok tt, <[t := t']> σ)
  | Raise e => (Raise e, σ)
  end.

Definition transform_points (points : loc) (params : list F) : M loc :=
  affine_matrix ← lift (reshape 3 3 (take 9 params));
  let translation_vector := drop (length params - 3) params in
  transformed_points ← copy points;
  p ← load points;
  prod ← lift (dot (cols3 p) (transpose affine_matrix));
  v ← lift (binop add prod (row_vector translation_vector));
  _ ← setitem transformed_points v;
  mret transformed_points.
End Store.
End Store.

(** ** The spatial index and the minimiser *)

(** [KDTree(data)] and [tree.query(x)]; of the pair [query] returns, the
    source reads item [1], the index array, which is what [query] is here. *)
Class SpatialIndex (F T : Type) : Type := {
  KDTree : ndarray F -> result T;
  query : T -> ndarray F -> result (list nat)
}.

(** [minimize(fun, x0, ...).x] *)
Class Minimizer (F : Type) : Type :=
  minimize : (list F -> result F) -> list F -> result (list F).

Section Estimator.
Context {F T : Type} {SF : Scalar F} {SI : SpatialIndex F T} {MZ : Minimizer F}.

(** The attributes of an [AlignClouds] object; [optimal_params] is unset
    until [estimate_transform] has run. *)
Record AlignClouds : Type := {
  tree : T;
  optimal_params : option (list F)
}.

(** [AlignClouds.__init__] *)
Definition __init__ (ex_2 : ndarray F) : result AlignClouds :=
  t ← KDTree (cols3 ex_2);
  Ok {| tree := t; optimal_params := None |}.

(** [a ** 2] *)
Definition power2 (a : ndarray F) : ndarray F :=
  Array2 (ncols a) (map (map (fun x => mul x x)) (rows a)).

(** [AlignClouds.loss_function] *)
Definition loss_function (self : AlignClouds) (A B : ndarray F) : result F :=
  query_responses ← query (tree self) (cols3 A);
  picked ← take_rows3 B query_responses;
  d ← binop sub (cols3 A) picked;
  Ok (vsum (flatten (power2 d))).

(** [AlignClouds.objective_function] *)
Definition objective_function (self : AlignClouds) (params : list F)
    (source target : ndarray F) : result F :=
  transformed_source ← transform_points source params;
  loss_function self transformed_source target.

(** The initial guess of [estimate_transform]. *)
Definition initial_params (source target : ndarray F) : result (list F) :=
  t ← binop1 sub (mean0 (cols3 target)) (mean0 (cols3 source));
  Ok (flatten (eye 3) ++ t).

(** [AlignClouds.estimate_transform]: the value returned and the object
    after the call. *)
Definition estimate_transform (self : AlignClouds)
    (source target : ndarray F) : result (list F * AlignClouds) :=
  x0 ← initial_params source target;
  x ← minimize (fun params => objective_function self params source target) x0;
  Ok (x, {| tree := tree self; optimal_params := Some x |}).

(** What a call of [estimate_transform] hands back to its caller. *)
Definition returned {A B : Type} (r : result (A * B)) : result A :=
  match r with
  | Ok (a, _) => Ok a
  | Raise e => Raise e
  end.

End Estimator.

Arguments AlignClouds F T : clear implicits.

(** ** An executable index: the linear scan *)

Section Scan.
Context {F : Type} {SF : Scalar F}.

Fixpoint argmin_from (q : list F) (best : nat) (bestd : F) (i : nat)
    (ps : list (list F)) : nat :=
  match ps with
  | [] => best
  | p :: ps' =>
      if leb bestd (sqdist q p) then argmin_from q best bestd (S i) ps'
      else argmin_from q i (sqdist q p) (S i) ps'
  end.

(** The first nearest row; on no data, the row count (no neighbour). *)
Definition nearest (data : list (list F)) (q : list F) : nat :=
  match data with
  | [] => 0
  | p :: ps => argmin_from q 0 (sqdist q p) 1 ps
  end.

(** Like the KDTree of scipy.spatial, the scan accepts data of no rows. *)
#[global] Instance scan_index : SpatialIndex F (ndarray F) := {|
  KDTree d := Ok d;
  query t x :=
    if decide (ncols x = ncols t) then Ok (map (nearest (rows t)) (rows x))
    else Raise ValueError
|}.

(** A minimiser that evaluates the objective at the starting point and
    stops there. *)
#[global] Instance minimize0 : Minimizer F := fun f x0 => _ ← f x0; Ok x0.

End Scan.

(** ** What the code relies on from its library *)

(** The index answers every query of matching dimension with one index per
    query point and, when it holds data, each index names a row of the data
    nearest to the query point.  This is the index on the values of exact
    arithmetic: on float64 a query point that is not finite is refused,
    see [IndexAnswers]. *)
Class IndexContract {F T : Type} {SF : Scalar F} (SI : SpatialIndex F T)
  : Prop := {
  query_length : forall d t x,
    KDTree d = Ok t -> ncols x = ncols d ->
    exists idx, query t x = Ok idx /\ length idx = nrows x;
  query_nearest : forall d t x idx i q j,
    KDTree d = Ok t -> wf d -> wf x -> ncols x = ncols d -> rows d <> [] ->
    query t x = Ok idx -> rows x !! i = Some q -> idx !! i = Some j ->
    exists p, rows d !! j = Some p /\
              forall p', p' ∈ rows d -> le (sqdist q p) (sqdist q p')
}.

(** The minimiser first evaluates the objective at the starting point, and
    an exception raised there reaches the caller; it returns a point of the
    dimension of its starting point whenever the objective can be evaluated
    throughout that space: running out of budget is not an error. *)
Class MinimizerContract {F : Type} (MZ : Minimizer F) : Prop := {
  minimize_raises : forall (f : list F -> result F) (x0 : list F) (e : exn),
    f x0 = Raise e -> minimize f x0 = Raise e;
  minimize_returns : forall (f : list F -> result F) (x0 : list F),
    (forall x, length x = length x0 -> succeeds (f x)) ->
    exists x, minimize f x0 = Ok x /\ length x = length x0
}.

(** Exact arithmetic. *)
Definition ring_laws (F : Type) {SF : Scalar F} : Prop :=
  ring_theory zero one add mul sub opp (@eq F).
Definition ordered_ring_laws (F : Type) {SF : Scalar F} : Prop :=
  SOR zero one add mul sub opp (@eq F) le lt.

(** ** Reference definitions, in the words of the specification *)

Section Reference.
Context {F : Type} {SF : Scalar F}.

(** Coordinate [j] of [linear_part · point + translation]: the point as a
    row, times the transpose of the row-major matrix [params[0..8]], plus
    [params[9..11]]. *)
Definition affine_coord (params p : list F) (j : nat) : F :=
  add (add (add (mul (nth 0 p zero) (nth (3 * j) params zero))
                (mul (nth 1 p zero) (nth (3 * j + 1) params zero)))
           (mul (nth 2 p zero) (nth (3 * j + 2) params zero)))
      (nth (9 + j) params zero).

Definition affine_point (params p : list F) : list F :=
  map (affine_coord params p) [0; 1; 2].

(** The same from a linear part [m] and a translation [t] given apart. *)
Definition affine_row (m t p : list F) : list F :=
  zip_with add
    (map (fun j => vdot (take 3 p) (take 3 (drop (3 * j) m))) [0; 1; 2]) t.

(** Component [j] of the centroid: the mean of coordinate [j]. *)
Definition centroid (a : ndarray F) (j : nat) : F :=
  div (vsum (column j a)) (of_nat (nrows a)).

(** The one-directional Chamfer distance from [A] to [B]: the sum over the
    points of [A] of the squared distance to their nearest point of [B],
    [nn] giving for each point of [A] the index of that point. *)
Definition chamfer (A B : ndarray F) (nn : list nat) : F :=
  vsum (zip_with (fun a j => sqdist (take 3 a) (take 3 (nth j (rows B) [])))
          (rows A) nn).

(** [12] scalars: identity linear part, then a translation. *)
Definition identity_params : list F :=
  [one; zero; zero; zero; one; zero; zero; zero; one; zero; zero; zero].

End Reference.

(** ** Concrete clouds, over the integers *)

Module Examples.
Local Open Scope Z_scope.

Definition cloud : ndarray Z := Array2 4 [[1; 2; 3; 7]; [0; 1; 0; 8]].
Definition target : ndarray Z := Array2 3 [[0; 0; 0]; [6; 6; 6]].
Definition source : ndarray Z := Array2 3 [[1; 0; 0]; [3; 4; 4]].
Definition other : ndarray Z := Array2 3 [[7; 7; 7]; [9; 9; 9]].
Definition empty : ndarray Z := Array2 3 [].

Definition params12 : list Z := [2; 0; 0; 0; 1; 0; 1; 1; 1; 10; 20; 30].
Definition params13 : list Z := [1; 0; 0; 0; 1; 0; 0; 0; 1; 10; 20; 30; 40].

Definition self : AlignClouds Z (ndarray Z) :=
  {| tree := target; optimal_params := None |}.

(** A store holding [cloud] as its one object. *)
Definition store : gmap Store.loc (ndarray Z) := {[ 1%positive := cloud ]}.
End Examples.

(** ** Composition of parameter vectors, and fields *)

Section Compose.
Context {F : Type} {SF : Scalar F}.

(** The parameters of "first [a], then [b]": the product of the linear
    parts, and the translation of [a] carried through [b]. *)
Definition compose_params (b a : list F) : list F :=
  let m v i j := nth (3 * i + j) v zero in
  let t v i := nth (9 + i) v zero in
  let lin i j :=
    add (add (mul (m b i 0) (m a 0 j)) (mul (m b i 1) (m a 1 j)))
        (mul (m b i 2) (m a 2 j)) in
  let tr i :=
    add (add (add (mul (m b i 0) (t a 0)) (mul (m b i 1) (t a 1)))
             (mul (m b i 2) (t a 2)))
        (t b i) in
  [lin 0 0; lin 0 1; lin 0 2; lin 1 0; lin 1 1; lin 1 2;
   lin 2 0; lin 2 1; lin 2 2; tr 0; tr 1; tr 2].

(** A cloud moved by [t]: the translation added to the first three
    coordinates of every point. *)
Definition translated (t : list F) (a : ndarray F) : ndarray F :=
  Array2 (ncols a)
    (map (fun p => zip_with add (take 3 p) t ++ drop 3 p) (rows a)).

(** Exact arithmetic with division, the naturals embedded without
    torsion. *)
Record field_laws : Prop := {
  field_ring : ring_laws F;
  div_mul_inv : forall x y : F, div x y = mul x (div one y);
  inv_mul : forall y : F, y <> zero -> mul (div one y) y = one;
  of_nat_0 : of_nat 0 = zero;
  of_nat_S : forall n, of_nat (S n) = add one (of_nat n);
  of_nat_S_nonzero : forall n, of_nat (S n) <> zero
}.

End Compose.

Arguments field_laws F {SF}.

(** The rationals, used to run the mean. *)
#[global] Instance Qc_scalar : Scalar Qc := {|
  zero := 0%Qc; one := 1%Qc;
  add := Qcplus; sub := Qcminus; mul := Qcmult; div := Qcdiv; opp := Qcopp;
  of_nat n := Q2Qc (inject_Z (Z.of_nat n));
  leb x y := Qle_bool x y
|}.

Module Examples2.
Local Open Scope Z_scope.

(** [Examples.source] moved by [(5, 0, 0)], and the estimator built on it. *)
Definition shift : list Z := [1; 0; 0; 0; 1; 0; 0; 0; 1; 5; 0; 0].
Definition unshift : list Z := [1; 0; 0; 0; 1; 0; 0; 0; 1; -5; 0; 0].
Definition shifted : ndarray Z := Array2 3 [[6; 0; 0]; [8; 4; 4]].
Definition self : AlignClouds Z (ndarray Z) :=
  {| tree := shifted; optimal_params := None |}.

(** Clouds of two columns and of one. *)
Definition flat : ndarray Z := Array2 2 [[1; 2]; [3; 4]].
Definition line : ndarray Z := Array2 1 [[1]; [3]].

(** A cloud over the rationals and the same moved by [(1/2, 0, 3)]. *)
Definition half : Qc := Q2Qc (1 # 2).
Definition move : list Qc := [half; 0%Qc; Q2Qc 3].
Definition cloudQ : ndarray Qc :=
  Array2 4 [[half; Q2Qc 2; 0%Qc; Q2Qc 7]; [Q2Qc 1; half; half; Q2Qc 8];
            [0%Qc; 0%Qc; Q2Qc 5; Q2Qc 9]].
Definition movedQ : ndarray Qc := translated move cloudQ.

End Examples2.

(** ** What holds of the library whatever the values *)

(** An index may refuse a query (scipy's refuses points that are not
    finite).  What the code can count on in every case: a query of no
    points is answered with no indices, and an answer holds one index per
    query point. *)
Class IndexAnswers {F T : Type} {SF : Scalar F} (SI : SpatialIndex F T)
  : Prop := {
  query_no_points : forall d t x,
    KDTree d = Ok t -> ncols x = ncols d -> rows x = [] -> query t x = Ok [];
  query_one_each : forall d t x idx,
    KDTree d = Ok t -> query t x = Ok idx -> length idx = nrows x
}.

(** A point the minimiser returns has the dimension of its starting point,
    whatever the objective. *)
Class MinimizerAnswers {F : Type} (MZ : Minimizer F) : Prop := {
  minimize_dimension : forall (f : list F -> result F) (x0 x : list F),
    minimize f x0 = Ok x -> length x = length x0
}.

(** ** The float64 carrier *)

(** IEEE 754 binary64, as the standard library specifies it: 53 bits of
    precision, rounding to nearest even. *)
Module Binary64.

#[global] Instance binary64 : Scalar spec_float := {|
  zero := S754_zero false;
  one := S754_finite false 4503599627370496 (-52);
  add := SFadd 53 1024; sub := SFsub 53 1024;
  mul := SFmul 53 1024; div := SFdiv 53 1024;
  opp := SFopp;
  of_nat n := binary_normalize 53 1024 (Z.of_nat n) 0 false;
  leb := SFleb
|}.

(** The float of value [m * 2 ^ e]. *)
Definition b64 (m e : Z) : spec_float := binary_normalize 53 1024 m e false.




(** [[1.5, -0.0, -2, 7], [0.1 (rounded), 3, 0, 8]] *)
Definition fin_cloud : ndarray spec_float :=
  Array2 4 [[b64 3 (-1); S754_zero true; b64 (-2) 0; b64 7 0];
            [SFdiv 53 1024 (b64 1 0) (b64 10 0); b64 3 0; S754_zero false;
             b64 8 0]].

End Binary64.

(** An estimator built from three points, and a cloud of the last one. *)
Module Examples3.
Local Open Scope Z_scope.

Definition three : ndarray Z := Array2 3 [[0; 0; 0]; [6; 6; 6]; [9; 9; 9]].
Definition single : ndarray Z := Array2 3 [[9; 9; 9]].
Definition self : AlignClouds Z (ndarray Z) :=
  {| tree := three; optimal_params := None |}.

End Examples3.

(** * Properties *)

(** ** Arrays and [transform_points] *)

Section ArrayFacts.
Context {F : Type} {SF : Scalar F}.
Implicit Types (a b P : ndarray F) (p q r : list F).

Lemma stretch_same {A} n (l : list A) : stretch n n l = l.
Proof. unfold stretch. by rewrite decide_True. Qed.

Lemma stretch_row {A} n (v : A) : stretch n 1 [v] = replicate n v.
Proof. unfold stretch. case_decide; by subst. Qed.

Lemma zip_with_replicate_r {A B C} (f : A -> B -> C) (l : list A) (v : B) :
  zip_with f l (replicate (length l) v) = map (fun x => f x v) l.
Proof. induction l as [|x l IH]; simpl; by rewrite ?IH. Qed.

Lemma zip_with_map_self {A B C} (f : A -> B -> C) (g : A -> B) (l : list A) :
  zip_with f l (map g l) = map (fun x => f x (g x)) l.
Proof. induction l as [|x l IH]; simpl; by rewrite ?IH. Qed.

Lemma bdim_same n : bdim n n = Some n.
Proof. unfold bdim. by rewrite decide_True. Qed.

Lemma bdim_one_r n : bdim n 1 = Some n.
Proof. unfold bdim. repeat case_decide; by subst. Qed.

Lemma broadcast_to_same a : broadcast_to (nrows a) (ncols a) a = rows a.
Proof.
  unfold broadcast_to. rewrite stretch_same.
  rewrite <- (map_id (rows a)) at 2. apply map_ext. intros r. apply stretch_same.
Qed.

Lemma broadcast_to_row n (v : list F) :
  broadcast_to n (length v) (row_vector v) = replicate n v.
Proof.
  unfold broadcast_to, row_vector, nrows. simpl. by rewrite stretch_same, stretch_row.
Qed.

Lemma dot_Ok a b :
  ncols a = nrows b ->
  dot a b = Ok (Array2 (ncols b)
                  (map (fun r => map (vdot r) (rows (transpose b))) (rows a))).
Proof. intros E. unfold dot. by rewrite decide_True. Qed.

Lemma binop_row_vector op a (t : list F) :
  ncols a = length t ->
  binop op a (row_vector t) =
    Ok (Array2 (ncols a) (map (fun r => zip_with op r t) (rows a))).
Proof.
  intros E. unfold binop.
  change (nrows (row_vector t)) with 1. change (ncols (row_vector t)) with (length t).
  rewrite bdim_one_r, <- E, bdim_same, broadcast_to_same, E, broadcast_to_row.
  unfold nrows. by rewrite zip_with_replicate_r.
Qed.

Lemma setitem_cols3_Ok t v :
  nrows v = nrows t -> ncols v = min 3 (ncols t) ->
  setitem_cols3 t v =
    Ok (Array2 (ncols t)
          (zip_with (fun r w => w ++ drop 3 r) (rows t) (rows v))).
Proof.
  intros En Ek. unfold setitem_cols3. rewrite decide_True by auto.
  by rewrite <- En, <- Ek, broadcast_to_same.
Qed.

Lemma transform_points_Ok P params :
  3 <= ncols P -> 9 <= length params ->
  transform_points P params =
    Ok (Array2 (ncols P)
          (map (fun p => affine_row (take 9 params)
                           (drop (length params - 3) params) p ++ drop 3 p)
             (rows P))).
Proof.
  intros HK Hlen. unfold transform_points.
  assert (Ht : length (drop (length params - 3) params) = 3)
    by (rewrite length_drop; lia).
  generalize dependent (drop (length params - 3) params). intros t Ht.
  assert (Hm : exists m0 m1 m2 m3 m4 m5 m6 m7 m8,
             take 9 params = [m0; m1; m2; m3; m4; m5; m6; m7; m8]).
  { do 9 (destruct params as [|? params]; [simpl in Hlen; lia|]).
    rewrite firstn_cons. simpl. eauto 10. }
  destruct Hm as (m0 & m1 & m2 & m3 & m4 & m5 & m6 & m7 & m8 & ->).
  change (reshape 3 3 [m0; m1; m2; m3; m4; m5; m6; m7; m8])
    with (Ok (Array2 3 [[m0; m1; m2]; [m3; m4; m5]; [m6; m7; m8]])).
  cbn [mbind result_bind].
  rewrite dot_Ok by (unfold cols3, transpose, nrows; cbn [ncols rows length map seq]; lia).
  cbn [mbind result_bind].
  rewrite binop_row_vector by (by rewrite Ht).
  cbn [mbind result_bind ncols rows].
  rewrite setitem_cols3_Ok.
  - f_equal. f_equal. cbn [rows cols3 ncols]. rewrite !map_map.
    rewrite zip_with_map_self. apply map_ext. intros p. reflexivity.
  - unfold nrows. cbn [rows cols3]. by rewrite !length_map.
  - unfold transpose, nrows. cbn [ncols rows length]. lia.
Qed.

Lemma transform_points_short P params :
  length params < 9 -> transform_points P params = Raise ValueError.
Proof.
  intros Hlen. unfold transform_points, reshape.
  rewrite decide_False; [reflexivity|]. rewrite length_take. lia.
Qed.

Lemma transform_points_narrow P params :
  ncols P < 3 -> transform_points P params = Raise ValueError.
Proof.
  intros HK. unfold transform_points, reshape.
  case_decide as Hlen; [|reflexivity]. cbn [mbind result_bind].
  unfold dot. rewrite decide_False; [reflexivity|].
  unfold cols3, transpose, nrows. cbn [ncols rows].
  rewrite length_map, length_seq. lia.
Qed.

(** The calls that return are those with at least nine parameters and at
    least three columns. *)
Lemma transform_points_succeeds P params :
  succeeds (transform_points P params) <->
  9 <= length params /\ 3 <= ncols P.
Proof.
  split.
  - intros [Q HQ].
    destruct (decide (length params < 9)) as [Hs|Hs].
    { rewrite transform_points_short in HQ by done. discriminate. }
    destruct (decide (ncols P < 3)) as [Hn|Hn].
    { rewrite transform_points_narrow in HQ by done. discriminate. }
    lia.
  - intros [Hl Hk]. eexists. by apply transform_points_Ok.
Qed.

Lemma affine_row_length m t p :
  length t = 3 -> length (affine_row m t p) = 3.
Proof. intros Ht. unfold affine_row. rewrite length_zip_with, Ht. reflexivity. Qed.

Lemma affine_row_point params p :
  length params = 12 -> 3 <= length p ->
  affine_row (take 9 params) (drop (length params - 3) params) p =
  affine_point params p.
Proof.
  intros Hl Hp. rewrite Hl.
  do 12 (destruct params as [|? params]; [discriminate Hl|]).
  destruct params; [|discriminate Hl].
  do 3 (destruct p as [|? p]; [simpl in Hp; lia|]).
  reflexivity.
Qed.
End ArrayFacts.

Section TransformPoints.
Context {F : Type} {SF : Scalar F}.
Implicit Types (P Q : ndarray F) (params p q : list F).

Lemma wf_lookup P i p : wf P -> rows P !! i = Some p -> length p = ncols P.
Proof. intros HP Hi. eapply Forall_lookup_1 in HP; eauto. Qed.

(** C4. For a cloud of at least three columns and twelve parameters,
    [transform_points] returns a cloud of the same shape whose row [i]
    starts with the row vector [P_i[:3]] times the transpose of the
    row-major matrix [params[0..8]], plus [params[9..11]]. *)
Theorem transform_points_affine P params :
  wf P -> 3 <= ncols P -> length params = 12 ->
  exists Q, transform_points P params = Ok Q /\
    nrows Q = nrows P /\ ncols Q = ncols P /\ wf Q /\
    forall i p, rows P !! i = Some p ->
      exists q, rows Q !! i = Some q /\ take 3 q = affine_point params p.
Proof.
  intros HP HK Hlen. eexists. split; [apply transform_points_Ok; lia|].
  assert (Ht : length (drop (length params - 3) params) = 3)
    by (rewrite length_drop; lia).
  unfold nrows. cbn [rows ncols]. rewrite length_map.
  split; [reflexivity|]. split; [reflexivity|]. split.
  - unfold wf. cbn [rows ncols]. apply Forall_map.
    eapply Forall_impl; [exact HP|]. cbv beta. intros p Hp.
    rewrite length_app, affine_row_length, length_drop by done. lia.
  - intros i p Hi. rewrite list_lookup_fmap, Hi.
    cbn [fmap option_fmap option_map]. eexists. split; [reflexivity|].
    rewrite take_app_length' by (symmetry; by apply affine_row_length).
    apply affine_row_point; [done|]. erewrite wf_lookup; eauto.
Qed.

End TransformPoints.

(** The theorem at a concrete cloud. *)
Lemma transform_points_affine_witness :
  exists Q, transform_points Examples.cloud Examples.params12 = Ok Q /\
    nrows Q = 2 /\ ncols Q = 4 /\ wf Q /\
    forall i p, rows Examples.cloud !! i = Some p ->
      exists q, rows Q !! i = Some q /\
                take 3 q = affine_point Examples.params12 p.
Proof.
  apply (transform_points_affine Examples.cloud Examples.params12).
  - repeat constructor.
  - simpl. lia.
  - reflexivity.
Defined.

(** ** The identity parameters *)

Section Identity.
Context {F : Type} {SF : Scalar F}.
Hypothesis exact : ring_laws F.

Add Ring scalar_ring : (exact : ring_theory zero one add mul sub opp (@eq F)).

Lemma affine_row_identity (p : list F) :
  3 <= length p ->
  affine_row (take 9 identity_params)
    (drop (length (identity_params (F:=F)) - 3) identity_params) p ++ drop 3 p = p.
Proof.
  intros Hp. do 3 (destruct p as [|? p]; [simpl in Hp; lia|]).
  cbn. rewrite take_0, drop_0. cbn. f_equal; [|f_equal; [|f_equal]]; ring.
Qed.

(** In exact arithmetic: with the identity linear part and the zero
    translation, [transform_points] returns the cloud it was given. *)
Theorem transform_points_identity (P : ndarray F) :
  wf P -> 3 <= ncols P -> transform_points P identity_params = Ok P.
Proof.
  intros HP HK. rewrite transform_points_Ok by (cbn; lia).
  destruct P as [k rs]. cbn [ncols rows] in *. f_equal. f_equal.
  rewrite <- (map_id rs) at 2. apply map_ext_Forall.
  eapply Forall_impl; [exact HP|]. cbv beta. cbn [ncols]. intros p Hp.
  apply affine_row_identity. lia.
Qed.
End Identity.

(** The integers are an instance of exact arithmetic. *)
Lemma Z_ring_laws : ring_laws Z.
Proof. exact InitialRing.Zth. Qed.

Lemma Z_ordered_ring_laws : ordered_ring_laws Z.
Proof.
  assert (Hle : forall x y : Z, le x y <-> (x <= y)%Z)
    by (intros; apply Z.leb_le).
  assert (Hlt : forall x y : Z, lt x y <-> (x < y)%Z)
    by (intros; apply Z.leb_gt).
  destruct ZMicromega.Zsor.
  constructor; try assumption; intros; rewrite ?Hle, ?Hlt in *; subst; eauto; try lia.
Qed.

Lemma transform_points_identity_witness :
  transform_points Examples.cloud identity_params = Ok Examples.cloud.
Proof.
  apply (transform_points_identity Z_ring_laws Examples.cloud).
  - repeat constructor.
  - simpl. lia.
Defined.

(** ** The identity parameters in float64 *)

Section Float64.
Import Binary64.
Implicit Types (x y z : spec_float) (p q : list spec_float).
Implicit Types (P Q : ndarray spec_float).











End Float64.



Example transform_points_identity_minus_zero :
  transform_points Binary64.fin_cloud identity_params =
    Ok (Array2 4
          [[Binary64.b64 3 (-1); S754_zero false; Binary64.b64 (-2) 0; Binary64.b64 7 0];
           [SFdiv 53 1024 (Binary64.b64 1 0) (Binary64.b64 10 0); Binary64.b64 3 0;
            S754_zero false; Binary64.b64 8 0]]).
Proof. vm_compute. reflexivity. Qed.

(** ** Parameter vectors of other lengths *)

(** C1 (the code at a vector of thirteen scalars).  The call returns: the
    first nine scalars are the matrix, the last three the translation, and
    the tenth is dropped. *)
Theorem transform_points_thirteen :
  transform_points Examples.cloud Examples.params13 =
    Ok (Array2 4 [[21; 32; 43; 7]; [20; 31; 40; 8]]%Z).
Proof. reflexivity. Qed.

(** With nine scalars the translation is read from the matrix itself. *)
Example transform_points_nine :
  transform_points Examples.cloud [1; 0; 0; 0; 1; 0; 0; 0; 1]%Z =
    Ok (Array2 4 [[1; 2; 4; 7]; [0; 1; 1; 8]]%Z).
Proof. reflexivity. Qed.

(** Only vectors too short to fill the matrix are refused. *)
Example transform_points_eight :
  transform_points Examples.cloud [1; 0; 0; 0; 1; 0; 0; 0]%Z = Raise ValueError.
Proof. reflexivity. Qed.

(** ** [transform_points] on the store *)

Section StoreFacts.
Context {F : Type} {SF : Scalar F}.
Implicit Types (σ : gmap Store.loc (ndarray F)) (points : Store.loc).

Lemma fresh_lookup σ : σ !! fresh (dom σ) = None.
Proof. apply not_elem_of_dom, is_fresh. Qed.

Lemma copy_load σ points :
  <[fresh (dom σ) := σ !!! points]> σ !!! points = σ !!! points.
Proof.
  destruct (decide (fresh (dom σ) = points)) as [<-|Hne].
  - by rewrite lookup_total_insert_eq.
  - by rewrite lookup_total_insert_ne.
Qed.

(** The store after a call: a new object holds what the function on array
    values computes from the contents of [points]. *)
Lemma store_transform_points_Ok σ points params Q :
  transform_points (σ !!! points) params = Ok Q ->
  Store.transform_points points params σ =
    (Ok (fresh (dom σ)), <[fresh (dom σ) := Q]> σ).
Proof.
  intros HQ. unfold transform_points in HQ. unfold Store.transform_points.
  unfold mbind, Store.M_bind, Store.lift, Store.copy, Store.load, Store.setitem.
  destruct (reshape 3 3 (take 9 params)) as [m|e]; [|discriminate].
  cbn [mbind result_bind] in HQ. rewrite copy_load.
  destruct (dot (cols3 (σ !!! points)) (transpose m)) as [prod|e]; [|discriminate].
  cbn [mbind result_bind] in HQ.
  destruct (binop add prod _) as [v|e]; [|discriminate].
  cbn [mbind result_bind] in HQ. rewrite lookup_total_insert_eq. rewrite HQ.
  cbn [mret Store.M_ret].
  by rewrite insert_insert_eq.
Qed.

(** Whatever the outcome, no object of the store before the call is
    changed. *)
Lemma store_transform_points_frame σ points params r σ' a x :
  Store.transform_points points params σ = (r, σ') ->
  σ !! a = Some x -> σ' !! a = Some x.
Proof.
  intros Hrun Ha.
  assert (Hne : fresh (dom σ) <> a).
  { intros <-. rewrite fresh_lookup in Ha. discriminate. }
  revert Hrun. unfold Store.transform_points.
  unfold mbind. unfold Store.M_bind, Store.lift, Store.copy, Store.load, Store.setitem.
  destruct (reshape 3 3 (take 9 params)) as [m|e]; [|by intros [= <- <-]].
  rewrite copy_load.
  destruct (dot (cols3 (σ !!! points)) (transpose m)) as [prod|e];
    [|intros [= <- <-]; by rewrite lookup_insert_ne].
  destruct (binop add prod _) as [v|e];
    [|intros [= <- <-]; by rewrite lookup_insert_ne].
  rewrite lookup_total_insert_eq.
  destruct (setitem_cols3 (σ !!! points) v) as [t|e]; intros [= <- <-];
    by rewrite ?lookup_insert_ne.
Qed.

(** C6. [transform_points] writes into a copy: the result is a new
    object, holding the cloud computed from the input; every object that
    existed before the call, the input among them, is unchanged; the result
    has the rows and columns of the input, and its columns beyond the third
    are those of the input. *)
Theorem transform_points_copies σ points (P : ndarray F) params :
  σ !! points = Some P -> wf P -> 3 <= ncols P -> length params = 12 ->
  exists l Q,
    Store.transform_points points params σ = (Ok l, <[l := Q]> σ) /\
    transform_points P params = Ok Q /\
    σ !! l = None /\
    (forall a x, σ !! a = Some x -> <[l := Q]> σ !! a = Some x) /\
    nrows Q = nrows P /\ ncols Q = ncols P /\
    forall i p, rows P !! i = Some p ->
      exists q, rows Q !! i = Some q /\ drop 3 q = drop 3 p.
Proof.
  intros Hp HP HK Hlen.
  assert (HQ := transform_points_Ok P params HK ltac:(lia)).
  set (Q := Array2 _ _) in HQ.
  exists (fresh (dom σ)), Q. split.
  { apply store_transform_points_Ok. by rewrite (lookup_total_correct _ _ _ Hp). }
  split; [exact HQ|].
  split; [apply fresh_lookup|]. split.
  { intros a x Ha. rewrite lookup_insert_ne; [done|].
    intros <-. rewrite fresh_lookup in Ha. discriminate. }
  unfold Q, nrows. cbn [rows ncols]. rewrite length_map.
  split; [reflexivity|]. split; [reflexivity|].
  intros i p Hi. rewrite list_lookup_fmap, Hi. cbn [fmap option_fmap option_map].
  eexists. split; [reflexivity|].
  rewrite drop_app_length'; [reflexivity|]. symmetry.
  apply affine_row_length. rewrite length_drop. lia.
Qed.
End StoreFacts.

Lemma transform_points_copies_witness :
  exists l Q,
    Store.transform_points 1%positive Examples.params12 Examples.store =
      (Ok l, <[l := Q]> Examples.store) /\
    transform_points Examples.cloud Examples.params12 = Ok Q /\
    Examples.store !! l = None /\
    (forall a x, Examples.store !! a = Some x ->
                 <[l := Q]> Examples.store !! a = Some x) /\
    nrows Q = nrows Examples.cloud /\ ncols Q = ncols Examples.cloud /\
    forall i p, rows Examples.cloud !! i = Some p ->
      exists q, rows Q !! i = Some q /\ drop 3 q = drop 3 p.
Proof.
  apply (transform_points_copies Examples.store 1%positive
           Examples.cloud Examples.params12).
  - reflexivity.
  - repeat constructor.
  - simpl. lia.
  - reflexivity.
Defined.

(** ** Sums under exact arithmetic *)

Section Sums.
Context {F : Type} {SF : Scalar F}.
Hypothesis exact : ring_laws F.

Add Ring scalar_ring' : (exact : ring_theory zero one add mul sub opp (@eq F)).

Lemma foldl_add (x : F) (l : list F) : foldl add x l = add x (vsum l).
Proof.
  revert x. induction l as [|y l IH]; intros x; cbn.
  - ring.
  - rewrite (IH (add x y)), (IH y). ring.
Qed.

Lemma vsum_cons (x : F) (l : list F) : vsum (x :: l) = add x (vsum l).
Proof. apply foldl_add. Qed.

Lemma vsum_app (l1 l2 : list F) : vsum (l1 ++ l2) = add (vsum l1) (vsum l2).
Proof.
  induction l1 as [|x l1 IH].
  - cbn. ring.
  - rewrite <- app_comm_cons, !vsum_cons, IH. ring.
Qed.

Lemma vsum_concat (ls : list (list F)) : vsum (concat ls) = vsum (map vsum ls).
Proof.
  induction ls as [|l ls IH]; [reflexivity|].
  cbn [concat map]. by rewrite vsum_app, vsum_cons, IH.
Qed.

Lemma vsum_zero (l : list F) : Forall (fun x => x = zero) l -> vsum l = zero.
Proof.
  induction 1 as [|x l -> _ IH]; [reflexivity|]. rewrite vsum_cons, IH. ring.
Qed.

Lemma sqdist_cons (a b : F) (p q : list F) :
  sqdist (a :: p) (b :: q) = add (mul (sub a b) (sub a b)) (sqdist p q).
Proof. unfold sqdist. cbn [zip_with]. apply vsum_cons. Qed.

Lemma sqdist_self (p : list F) : sqdist p p = zero.
Proof.
  induction p as [|a p IH]; [reflexivity|]. rewrite sqdist_cons, IH. ring.
Qed.

(** The sum of all squared differences is the sum of the squared
    distances of the rows. *)
Lemma vsum_power2_sub (k : nat) (X Y : list (list F)) :
  vsum (flatten (power2 (Array2 k (zip_with (zip_with sub) X Y)))) =
  vsum (zip_with sqdist X Y).
Proof.
  unfold flatten, power2. cbn [rows]. rewrite vsum_concat. f_equal.
  rewrite map_map. revert Y. induction X as [|x X IH]; intros [|y Y]; cbn; try done.
  f_equal; [|apply IH]. unfold sqdist. f_equal.
  clear. revert y. induction x as [|a x IH]; intros [|b y]; cbn; try done.
  by rewrite IH.
Qed.
End Sums.

Section Order.
Context {F : Type} {SF : Scalar F}.
Hypothesis exact : ordered_ring_laws F.

Add Ring scalar_ring'' :
  (SORrt exact : ring_theory zero one add mul sub opp (@eq F)).

Lemma le_refl (x : F) : le x x.
Proof. apply (Rle_refl exact). Qed.

Lemma le_trans (x y z : F) : le x y -> le y z -> le x z.
Proof. apply (Rle_trans exact). Qed.

Lemma leb_false_le (x y : F) : leb x y = false -> le y x.
Proof.
  intros H. change (lt y x) in H. apply (Rlt_le_neq exact) in H. tauto.
Qed.

Lemma sum_nonneg_zero (x y : F) :
  le zero x -> le zero y -> add x y = zero -> x = zero /\ y = zero.
Proof.
  intros Hx Hy Hs.
  assert (Hx0 : x = zero).
  { apply (Rle_antisymm exact); [|done]. rewrite <- Hs.
    replace x with (add x zero) at 1 by ring.
    by apply (Rplus_le_mono_l exact). }
  split; [done|]. rewrite Hx0 in Hs. rewrite <- Hs. ring.
Qed.

Lemma square_zero (x : F) : mul x x = zero -> x = zero.
Proof.
  intros Hx. destruct (Req_em exact x zero) as [|Hne]; [done|].
  exfalso. by apply (Rtimes_neq_0 exact x x).
Qed.

Lemma sqdist_nonneg (p q : list F) : le zero (sqdist p q).
Proof.
  revert q. induction p as [|a p IH]; intros [|b q]; try apply le_refl.
  rewrite (sqdist_cons (SORrt exact)).
  apply (Rplus_nonneg_nonneg exact); [apply (Rtimes_square_nonneg exact)|apply IH].
Qed.

(** Points at distance zero coincide. *)
Lemma sqdist_zero (p q : list F) :
  length p = length q -> sqdist p q = zero -> p = q.
Proof.
  revert q. induction p as [|a p IH]; intros [|b q] Hlen Hd; try done.
  rewrite (sqdist_cons (SORrt exact)) in Hd.
  apply sum_nonneg_zero in Hd as [Ha Hq];
    [|apply (Rtimes_square_nonneg exact)|apply sqdist_nonneg].
  apply square_zero in Ha. apply (proj1 (Rminus_eq_0 exact a b)) in Ha. subst b.
  f_equal. apply IH; [|done]. by injection Hlen.
Qed.
End Order.

(** ** [loss_function] *)

Section LossFacts.
Context {F T : Type} {SF : Scalar F} {SI : SpatialIndex F T}.
Implicit Types (A B C D : ndarray F) (self : AlignClouds F T) (idx : list nat).

Lemma binop_same_shape op (a b : ndarray F) :
  nrows a = nrows b -> ncols a = ncols b ->
  binop op a b =
    Ok (Array2 (ncols a) (zip_with (zip_with op) (rows a) (rows b))).
Proof.
  intros En Ek. unfold binop.
  rewrite <- En, <- Ek, !bdim_same, broadcast_to_same.
  by rewrite En, Ek, broadcast_to_same.
Qed.

Lemma take_rows3_Ok B idx :
  Forall (fun j => j < nrows B) idx ->
  take_rows3 B idx =
    Ok (Array2 (min 3 (ncols B))
          (map (fun j => take 3 (nth j (rows B) [])) idx)).
Proof.
  intros Hidx. unfold take_rows3.
  assert (E : mapM (fun j => rows B !! j) idx =
              Some (map (fun j => nth j (rows B) []) idx)).
  { apply mapM_Some. apply Forall2_fmap_r, Forall_Forall2_diag.
    eapply Forall_impl; [exact Hidx|]. cbv beta. intros j Hj.
    destruct (nth_lookup_or_length (rows B) j []) as [E|E]; [exact E|].
    unfold nrows in Hj. lia. }
  rewrite E. by rewrite map_map.
Qed.

Lemma init_tree D self : __init__ D = Ok self -> KDTree (cols3 D) = Ok (tree self).
Proof.
  unfold __init__. destruct (KDTree (cols3 D)) as [t|e]; [|discriminate].
  by intros [= <-].
Qed.

(** What [loss_function] computes, once the index has answered. *)
Lemma loss_function_Ok self A B idx :
  query (tree self) (cols3 A) = Ok idx -> length idx = nrows A ->
  Forall (fun j => j < nrows B) idx -> min 3 (ncols A) = min 3 (ncols B) ->
  loss_function self A B =
    Ok (vsum (flatten (power2 (Array2 (min 3 (ncols A))
          (zip_with (zip_with sub) (map (take 3) (rows A))
             (map (fun j => take 3 (nth j (rows B) [])) idx)))))).
Proof.
  intros Hq Hlen Hidx Hk. unfold loss_function. rewrite Hq.
  cbn [mbind result_bind]. rewrite take_rows3_Ok by done.
  cbn [mbind result_bind]. rewrite binop_same_shape.
  - reflexivity.
  - unfold nrows in *. cbn [rows cols3]. by rewrite !length_map.
  - exact Hk.
Qed.

(** Under exact arithmetic that is the sum of the squared distances to
    the rows of the second argument. *)
Lemma loss_function_chamfer (exact : ring_laws F) self A B idx :
  query (tree self) (cols3 A) = Ok idx -> length idx = nrows A ->
  Forall (fun j => j < nrows B) idx -> min 3 (ncols A) = min 3 (ncols B) ->
  loss_function self A B = Ok (chamfer A B idx).
Proof.
  intros Hq Hlen Hidx Hk. rewrite (loss_function_Ok self A B idx) by done.
  f_equal. rewrite (vsum_power2_sub exact). unfold chamfer. f_equal.
  rewrite zip_with_fmap_l, zip_with_fmap_r. reflexivity.
Qed.
End LossFacts.

(** ** The linear scan and the zero-step minimiser meet their contracts *)

Section ScanFacts.
Context {F : Type} {SF : Scalar F}.
Hypothesis exact : ordered_ring_laws F.

Lemma argmin_from_nearest (q : list F) (ps pre : list (list F))
    (best : nat) (pb : list F) :
  pre !! best = Some pb ->
  (forall p', p' ∈ pre -> le (sqdist q pb) (sqdist q p')) ->
  exists p,
    (pre ++ ps) !! argmin_from q best (sqdist q pb) (length pre) ps = Some p /\
    forall p', p' ∈ pre ++ ps -> le (sqdist q p) (sqdist q p').
Proof.
  revert pre best pb. induction ps as [|p ps IH]; intros pre best pb Hb Hmin.
  - exists pb. rewrite app_nil_r. by split.
  - cbn [argmin_from].
    replace (pre ++ p :: ps) with ((pre ++ [p]) ++ ps) by (by rewrite <- app_assoc).
    replace (S (length pre)) with (length (pre ++ [p]))
      by (rewrite length_app; cbn; lia).
    destruct (leb (sqdist q pb) (sqdist q p)) eqn:Hle.
    + apply IH.
      * by apply lookup_app_l_Some.
      * intros p' [Hp'| ->%list_elem_of_singleton]%elem_of_app; [by apply Hmin|exact Hle].
    + apply leb_false_le in Hle; [|done].
      apply IH.
      * by apply list_lookup_middle.
      * intros p' [Hp'| ->%list_elem_of_singleton]%elem_of_app.
        -- eapply le_trans; [done|exact Hle|by apply Hmin].
        -- by apply le_refl.
Qed.

Lemma nearest_spec (q p0 : list F) (ps : list (list F)) :
  exists p, (p0 :: ps) !! nearest (p0 :: ps) q = Some p /\
            forall p', p' ∈ p0 :: ps -> le (sqdist q p) (sqdist q p').
Proof.
  apply (argmin_from_nearest q ps [p0] 0 p0); [reflexivity|].
  intros p' ->%list_elem_of_singleton. by apply le_refl.
Qed.

Lemma scan_index_contract : IndexContract (scan_index (F:=F)).
Proof.
  split.
  - intros d t x [= <-] Hk. cbn. rewrite decide_True by done.
    eexists. split; [reflexivity|]. by rewrite length_map.
  - intros d t x idx i q j [= <-] _ _ Hk Hd. cbn. rewrite decide_True by done.
    intros [= <-] Hq. rewrite list_lookup_fmap, Hq. intros [= <-].
    destruct (rows d) as [|p0 ps]; [done|]. apply nearest_spec.
Qed.
End ScanFacts.

Lemma minimize0_contract {F : Type} : MinimizerContract (minimize0 (F:=F)).
Proof.
  split.
  - intros f x0 e Hf. unfold minimize, minimize0. by rewrite Hf.
  - intros f x0 Hf. destruct (Hf x0 eq_refl) as [y Hy].
    exists x0. unfold minimize, minimize0. by rewrite Hy.
Qed.

(** The scan and the one-step minimiser answer as every index and every
    minimiser do. *)
Lemma scan_index_answers {F : Type} {SF : Scalar F} :
  IndexAnswers (scan_index (F:=F)).
Proof.
  split.
  - intros d t x [= <-] Hk Hx. unfold query, scan_index.
    rewrite decide_True by done. by rewrite Hx.
  - intros d t x idx _. unfold query, scan_index.
    case_decide; [|discriminate]. intros [= <-].
    unfold nrows. by rewrite length_map.
Qed.

Lemma minimize0_answers {F : Type} : MinimizerAnswers (minimize0 (F:=F)).
Proof.
  split. intros f x0 x. unfold minimize, minimize0.
  destruct (f x0); [|discriminate]. by intros [= <-].
Qed.

(** ** The loss against the cloud of the index, and against another *)

Section Chamfer.
Context {F T : Type} {SF : Scalar F} {SI : SpatialIndex F T}.
Context (HI : IndexContract SI).
Implicit Types (A B C D : ndarray F) (self : AlignClouds F T) (idx : list nat).

Lemma wf_cols3 A : wf A -> wf (cols3 A).
Proof.
  unfold wf. cbn [rows cols3 ncols]. intros HA. apply Forall_map.
  eapply Forall_impl; [exact HA|]. cbv beta. intros r <-. by rewrite length_take.
Qed.

(** The answers of an index built from [D]: row numbers of
    [D], each of a row nearest to the query point on the first three
    columns. *)
Lemma query_nearest_rows D self (x : ndarray F) idx i q j :
  KDTree (cols3 D) = Ok (tree self) -> wf D -> wf x -> ncols x = min 3 (ncols D) ->
  rows D <> [] -> query (tree self) x = Ok idx ->
  rows x !! i = Some q -> idx !! i = Some j ->
  exists d, rows D !! j = Some d /\
    forall d', d' ∈ rows D -> le (sqdist q (take 3 d)) (sqdist q (take 3 d')).
Proof.
  intros Hinit HD Hx Hk Hne Hq Hi Hj.
  destruct (query_nearest (cols3 D) (tree self) x idx i q j) as (p & Hp & Hmin);
    try done.
  { by apply wf_cols3. }
  { cbn [rows cols3]. by destruct (rows D). }
  cbn [rows cols3] in Hp. rewrite list_lookup_fmap in Hp.
  destruct (rows D !! j) as [d|] eqn:Hd; [|discriminate]. injection Hp as <-.
  exists d. split; [done|]. intros d' Hd'. apply Hmin.
  cbn [rows cols3]. by apply list_elem_of_fmap_2.
Qed.

Lemma query_in_range D self (x : ndarray F) idx :
  KDTree (cols3 D) = Ok (tree self) -> wf D -> wf x -> ncols x = min 3 (ncols D) ->
  rows D <> [] -> query (tree self) x = Ok idx -> length idx = nrows x ->
  Forall (fun j => j < nrows D) idx.
Proof.
  intros Hinit HD Hx Hk Hne Hq Hlen. apply Forall_lookup. intros i j Hj.
  destruct (lookup_lt_is_Some_2 (rows x) i) as [q Hi].
  { unfold nrows in Hlen. rewrite <- Hlen. by eapply lookup_lt_Some. }
  destruct (query_nearest_rows D self x idx i q j) as (d & Hd & _); try done.
  by eapply lookup_lt_Some.
Qed.

(** C7. For a non-empty cloud and the index built from it, the rows the
    index answers coincide, on the first three columns, with the points
    asked for (every point is its own nearest neighbour), and the loss of the
    cloud against itself is zero. *)
Theorem loss_function_self_zero (exact : ordered_ring_laws F) C self :
  wf C -> rows C <> [] -> __init__ C = Ok self ->
  (exists idx, query (tree self) (cols3 C) = Ok idx /\
     forall i a j, rows C !! i = Some a -> idx !! i = Some j ->
       exists c, rows C !! j = Some c /\ take 3 c = take 3 a) /\
  loss_function self C C = Ok zero.
Proof.
  intros HC Hne Hinit. apply init_tree in Hinit.
  destruct (query_length (cols3 C) (tree self) (cols3 C)) as (idx & Hq & Hlen);
    [done|done|].
  assert (Hlen' : length idx = nrows C)
    by (rewrite Hlen; unfold nrows; cbn [rows cols3]; by rewrite length_map).
  assert (Hzero : forall i a j, rows C !! i = Some a -> idx !! i = Some j ->
            exists c, rows C !! j = Some c /\
                      sqdist (take 3 a) (take 3 c) = zero).
  { intros i a j Ha Hj.
    destruct (query_nearest_rows C self (cols3 C) idx i (take 3 a) j)
      as (c & Hc & Hmin); try done.
    { by apply wf_cols3. }
    { cbn [rows cols3]. by rewrite list_lookup_fmap, Ha. }
    exists c. split; [done|].
    apply (Rle_antisymm exact); [|by apply sqdist_nonneg].
    rewrite <- (sqdist_self (SORrt exact) (take 3 a)).
    apply Hmin. by eapply list_elem_of_lookup_2. }
  split.
  - exists idx. split; [done|]. intros i a j Ha Hj.
    destruct (Hzero i a j Ha Hj) as (c & Hc & Hd).
    exists c. split; [done|]. symmetry. apply (sqdist_zero exact); [|done].
    rewrite !length_take, (wf_lookup C i a), (wf_lookup C j c); done.
  - rewrite (loss_function_chamfer (SORrt exact) self C C idx); try done.
    2:{ apply (query_in_range C self (cols3 C) idx); try done. by apply wf_cols3. }
    f_equal. apply (vsum_zero (SORrt exact)), Forall_lookup. intros i z Hz.
    apply lookup_zip_with_Some in Hz as (a & j & -> & Ha & Hj).
    destruct (Hzero i a j Ha Hj) as (c & Hc & Hd).
    by rewrite (nth_lookup_Some _ _ _ _ Hc).
Qed.

(** C10. The index answers from the cloud it was built from, [D]; the
    coordinates are read from the argument [B].  The loss is the Chamfer
    distance to [B] along those answers, and it is the Chamfer distance to
    [D] when [B] agrees with [D], on the first three columns, at every
    index answered. *)
Theorem loss_function_reads_argument (exact : ring_laws F) D self A :
  __init__ D = Ok self -> wf D -> wf A -> rows D <> [] ->
  3 <= ncols D -> 3 <= ncols A ->
  exists idx,
    query (tree self) (cols3 A) = Ok idx /\ length idx = nrows A /\
    (forall i a j, rows A !! i = Some a -> idx !! i = Some j ->
       exists d, rows D !! j = Some d /\
         forall d', d' ∈ rows D ->
           le (sqdist (take 3 a) (take 3 d)) (sqdist (take 3 a) (take 3 d'))) /\
    forall B, 3 <= ncols B -> Forall (fun j => j < nrows B) idx ->
      loss_function self A B = Ok (chamfer A B idx) /\
      ((forall j, j ∈ idx ->
          take 3 (nth j (rows B) []) = take 3 (nth j (rows D) [])) ->
       loss_function self A B = Ok (chamfer A D idx)).
Proof.
  intros Hinit HD HA Hne HkD HkA. apply init_tree in Hinit.
  destruct (query_length (cols3 D) (tree self) (cols3 A)) as (idx & Hq & Hlen);
    [done|cbn [ncols cols3]; lia|].
  assert (Hlen' : length idx = nrows A)
    by (rewrite Hlen; unfold nrows; cbn [rows cols3]; by rewrite length_map).
  exists idx. split; [done|]. split; [done|]. split.
  - intros i a j Ha Hj.
    apply (query_nearest_rows D self (cols3 A) idx i (take 3 a) j); try done.
    + by apply wf_cols3.
    + cbn [ncols cols3]. lia.
    + cbn [rows cols3]. by rewrite list_lookup_fmap, Ha.
  - intros B HkB Hidx.
    assert (HB : loss_function self A B = Ok (chamfer A B idx))
      by (apply (loss_function_chamfer exact); try done; lia).
    split; [done|]. intros Hagree. rewrite HB. f_equal. unfold chamfer. f_equal.
    apply Forall_zip_with_ext_r; [done|]. apply Forall_forall.
    intros j Hj a. by rewrite (Hagree j Hj).
Qed.
End Chamfer.

Lemma loss_function_self_zero_witness :
  (exists idx, query (tree Examples.self) (cols3 Examples.target) = Ok idx /\
     forall i a j, rows Examples.target !! i = Some a -> idx !! i = Some j ->
       exists c, rows Examples.target !! j = Some c /\ take 3 c = take 3 a) /\
  loss_function Examples.self Examples.target Examples.target = Ok 0%Z.
Proof.
  apply (loss_function_self_zero (scan_index_contract Z_ordered_ring_laws)
           Z_ordered_ring_laws Examples.target Examples.self).
  - repeat constructor.
  - discriminate.
  - reflexivity.
Defined.

Lemma loss_function_reads_argument_witness :
  exists idx,
    query (tree Examples.self) (cols3 Examples.source) = Ok idx /\
    length idx = nrows Examples.source /\
    (forall i a j, rows Examples.source !! i = Some a -> idx !! i = Some j ->
       exists d, rows Examples.target !! j = Some d /\
         forall d', d' ∈ rows Examples.target ->
           le (sqdist (take 3 a) (take 3 d)) (sqdist (take 3 a) (take 3 d'))) /\
    forall B, 3 <= ncols B -> Forall (fun j => j < nrows B) idx ->
      loss_function Examples.self Examples.source B =
        Ok (chamfer Examples.source B idx) /\
      ((forall j, j ∈ idx ->
          take 3 (nth j (rows B) []) = take 3 (nth j (rows Examples.target) [])) ->
       loss_function Examples.self Examples.source B =
         Ok (chamfer Examples.source Examples.target idx)).
Proof.
  apply (loss_function_reads_argument (scan_index_contract Z_ordered_ring_laws)
           Z_ring_laws Examples.target Examples.self Examples.source).
  - reflexivity.
  - repeat constructor.
  - repeat constructor.
  - discriminate.
  - simpl. lia.
  - simpl. lia.
Defined.

(** Against a second argument that differs from the cloud of the index, the
    loss is not the distance to that cloud. *)
Example loss_function_other :
  loss_function Examples.self Examples.source Examples.target = Ok 18%Z /\
  loss_function Examples.self Examples.source Examples.other = Ok 220%Z.
Proof. split; reflexivity. Qed.

(** A second argument shorter than the cloud of the index cannot be read. *)
Example loss_function_short :
  loss_function Examples.self Examples.source (Array2 3 [[0; 0; 0]]%Z) =
    Raise IndexError.
Proof. reflexivity. Qed.

(** ** The initial guess *)

Section InitialGuess.
Context {F : Type} {SF : Scalar F}.
Implicit Types (a source target : ndarray F).

Lemma foldl_zip_with_add (rs : list (list F)) (r : list F) (k : nat) :
  length r = k -> Forall (fun r' => length r' = k) rs ->
  foldl (zip_with add) r rs =
    map (fun j => foldl add (nth j r zero) (map (fun r' => nth j r' zero) rs))
        (seq 0 k).
Proof.
  revert r. induction rs as [|r1 rs IH]; intros r Hr Hrs.
  - cbn [foldl map]. subst k. clear. induction r as [|x r IH]; [reflexivity|].
    cbn [length seq map nth]. f_equal.
    rewrite <- seq_shift, map_map. exact IH.
  - inversion Hrs as [|?? Hr1 Hrs']; subst. cbn [foldl map].
    rewrite (IH (zip_with add r r1)); [|rewrite length_zip_with; lia|done].
    apply map_ext_in. intros j Hj%in_seq. f_equal.
    revert j Hj. clear -Hr1. revert r1 Hr1.
    induction r as [|x r IH]; intros [|y r1] Hlen j Hj; cbn in *; try lia.
    destruct j as [|j]; [reflexivity|]. apply IH; lia.
Qed.

(** The sum along axis 0 holds, in each column, the sum of the column. *)
Lemma sum0_columns a :
  wf a -> sum0 a = map (fun j => vsum (column j a)) (seq 0 (ncols a)).
Proof.
  unfold wf, sum0, column. destruct (rows a) as [|r rs]; intros Ha.
  - cbn [map vsum]. generalize 0. induction (ncols a) as [|k IH]; intros s; [reflexivity|].
    cbn [seq map replicate]. by rewrite <- IH.
  - inversion Ha; subst. by apply foldl_zip_with_add.
Qed.

Lemma mean0_length (a : ndarray F) : wf a -> length (mean0 a) = ncols a.
Proof.
  intros Ha. unfold mean0. rewrite sum0_columns by done.
  by rewrite !length_map, length_seq.
Qed.

Lemma column_cols3 a j : j < 3 -> column j (cols3 a) = column j a.
Proof.
  intros Hj. unfold column. cbn [rows cols3]. rewrite map_map.
  apply map_ext. intros r. revert j Hj. generalize 3.
  induction r as [|x r IH]; intros n [|j] Hj; destruct n; cbn; try lia; try done.
  apply IH. lia.
Qed.

Lemma mean0_cols3 a :
  wf a -> 3 <= ncols a ->
  mean0 (cols3 a) = [centroid a 0; centroid a 1; centroid a 2].
Proof.
  intros Ha Hk. unfold mean0.
  rewrite sum0_columns by (by apply wf_cols3).
  cbn [ncols cols3]. rewrite Nat.min_l by done. cbn [seq map].
  rewrite !column_cols3 by lia. unfold centroid, nrows. cbn [rows cols3].
  by rewrite length_map.
Qed.

(** The value of the initial guess. *)
Lemma initial_params_centroids source target :
  wf source -> wf target -> 3 <= ncols source -> 3 <= ncols target ->
  initial_params source target =
    Ok [one; zero; zero; zero; one; zero; zero; zero; one;
        sub (centroid target 0) (centroid source 0);
        sub (centroid target 1) (centroid source 1);
        sub (centroid target 2) (centroid source 2)].
Proof.
  intros Hs Ht Hks Hkt. unfold initial_params.
  by rewrite !mean0_cols3.
Qed.
End InitialGuess.

Example initial_params_centroids_example :
  initial_params Examples.source Examples.target =
    Ok [1; 0; 0; 0; 1; 0; 0; 0; 1; 1; 1; 1]%Z.
Proof. reflexivity. Qed.

(** ** The constructor *)

Section Constructor.
Context {F T : Type} {SF : Scalar F} {SI : SpatialIndex F T}.

(** C2 (as the code has it).  The constructor checks nothing itself: it
    hands the first three columns, with as many rows as the cloud has, to
    the index, and fails exactly when building the index fails, with the
    same exception. *)
Theorem init_delegates (ex_2 : ndarray F) :
  nrows (cols3 ex_2) = nrows ex_2 /\
  (forall e, __init__ ex_2 = Raise e <-> KDTree (cols3 ex_2) = Raise e) /\
  (forall self, __init__ ex_2 = Ok self <->
     KDTree (cols3 ex_2) = Ok (tree self) /\ optimal_params self = None).
Proof.
  split; [unfold nrows; cbn [rows cols3]; by rewrite length_map|].
  unfold __init__. destruct (KDTree (cols3 ex_2)) as [t|e0]; cbn [mbind result_bind].
  - split; [intros e; split; discriminate|].
    intros [t' o]. cbn [tree optimal_params]. split.
    + by intros [= <- <-].
    + by intros [[= <-] <-].
  - split; [intros e; split; by intros [= <-]|].
    intros self. split; [discriminate|]. by intros [[=] _].
Qed.
End Constructor.

(** C2 (counterexample).  With an index that accepts it, a cloud of zero
    points is constructed from without failure. *)
Lemma init_empty_accepted :
  nrows Examples.empty = 0 /\
  ~ fails (__init__ (SI := scan_index) Examples.empty).
Proof. split; [reflexivity|]. intros [e He]. discriminate He. Qed.

(** ** [objective_function] and [estimate_transform] *)

Section EstimatorFacts.
Context {F T : Type} {SF : Scalar F} {SI : SpatialIndex F T} {MZ : Minimizer F}.
Implicit Types (D source target : ndarray F) (self : AlignClouds F T).
Implicit Types (params x : list F).

(** The minimiser is started from the initial guess. *)
Lemma estimate_transform_run self source target x0 :
  initial_params source target = Ok x0 ->
  estimate_transform self source target =
    (x ← minimize (fun params => objective_function self params source target) x0;
     Ok (x, {| tree := tree self; optimal_params := Some x |})).
Proof. intros H0. unfold estimate_transform. by rewrite H0. Qed.

(** The outcome does not depend on the optimum recorded earlier. *)
Lemma estimate_transform_same_tree self self2 source target :
  tree self2 = tree self ->
  returned (estimate_transform self2 source target) =
  returned (estimate_transform self source target).
Proof.
  intros Ht. unfold estimate_transform, objective_function, loss_function.
  rewrite Ht. destruct (initial_params source target) as [x0|e]; [|reflexivity].
  cbn [mbind result_bind]. by destruct (minimize _ x0).
Qed.

(** C8. The initial guess of [estimate_transform]: the identity as linear
    part, then the centroid of the target minus the centroid of the
    source, componentwise; the minimiser is started from it. *)
Theorem estimate_transform_initial_guess self source target :
  wf source -> wf target -> 3 <= ncols source -> 3 <= ncols target ->
  let x0 := [one; zero; zero; zero; one; zero; zero; zero; one;
             sub (centroid target 0) (centroid source 0);
             sub (centroid target 1) (centroid source 1);
             sub (centroid target 2) (centroid source 2)] in
  initial_params source target = Ok x0 /\
  estimate_transform self source target =
    (x ← minimize (fun params => objective_function self params source target) x0;
     Ok (x, {| tree := tree self; optimal_params := Some x |})).
Proof.
  intros Hs Ht Hks Hkt x0.
  assert (H0 : initial_params source target = Ok x0)
    by (by apply initial_params_centroids).
  split; [done|]. by apply estimate_transform_run.
Qed.
End EstimatorFacts.

Lemma estimate_transform_initial_guess_witness :
  initial_params Examples.source Examples.target =
    Ok [1; 0; 0; 0; 1; 0; 0; 0; 1; 1; 1; 1]%Z /\
  estimate_transform Examples.self Examples.source Examples.target =
    (x ← minimize (fun params =>
                     objective_function Examples.self params
                       Examples.source Examples.target)
                  [1; 0; 0; 0; 1; 0; 0; 0; 1; 1; 1; 1]%Z;
     Ok (x, {| tree := tree Examples.self; optimal_params := Some x |})).
Proof.
  assert (Hs : wf Examples.source) by repeat constructor.
  assert (Ht : wf Examples.target) by repeat constructor.
  assert (Hks : 3 <= ncols Examples.source) by (simpl; lia).
  assert (Hkt : 3 <= ncols Examples.target) by (simpl; lia).
  exact (estimate_transform_initial_guess Examples.self
           Examples.source Examples.target Hs Ht Hks Hkt).
Defined.

(** ** Where the objective can be evaluated *)

Section Totality.
Context {F T : Type} {SF : Scalar F} {SI : SpatialIndex F T}.
Context (HI : IndexContract SI).
Implicit Types (D source target : ndarray F) (self : AlignClouds F T).
Implicit Types (params x : list F).

Lemma transform_points_wf source params :
  wf source -> 3 <= ncols source -> 9 <= length params ->
  exists ts, transform_points source params = Ok ts /\ wf ts /\
             ncols ts = ncols source /\ nrows ts = nrows source.
Proof.
  intros Hs Hk Hlen. eexists. split; [by apply transform_points_Ok|].
  unfold wf, nrows. cbn [rows ncols]. rewrite length_map. split; [|done].
  apply Forall_map. eapply Forall_impl; [exact Hs|]. cbv beta. intros p Hp.
  rewrite length_app, affine_row_length, length_drop; [lia|].
  rewrite length_drop. lia.
Qed.

(** With an index that answers every query, built from a non-empty cloud
    with no more rows than the target, the objective can be evaluated at
    every parameter vector. *)
Lemma objective_function_total D self source target params :
  KDTree (cols3 D) = Ok (tree self) -> wf D -> rows D <> [] ->
  3 <= ncols D -> nrows D <= nrows target -> 3 <= ncols target ->
  wf source -> 3 <= ncols source -> 9 <= length params ->
  succeeds (objective_function self params source target).
Proof.
  intros Ht HD Hne HkD Hn Hkt Hs Hks Hlen. unfold objective_function.
  destruct (transform_points_wf source params) as (ts & -> & Hts & Hk & Hr);
    try done.
  cbn [mbind result_bind].
  destruct (query_length (cols3 D) (tree self) (cols3 ts)) as (idx & Hq & Hl);
    [done|cbn [ncols cols3]; lia|].
  assert (Hl' : length idx = nrows ts)
    by (rewrite Hl; unfold nrows; cbn [rows cols3]; by rewrite length_map).
  eexists. apply (loss_function_Ok self ts target idx); try done; [|lia].
  eapply Forall_impl.
  - apply (query_in_range HI D self (cols3 ts) idx); try done.
    + by apply wf_cols3.
    + cbn [ncols cols3]. lia.
  - cbv beta. intros j Hj. lia.
Qed.
End Totality.

(** ** Empty clouds and clouds too narrow *)

Section Unchecked.
Context {F T : Type} {SF : Scalar F} {SI : SpatialIndex F T} {MZ : Minimizer F}.
Context (HI : IndexAnswers SI) (HM : MinimizerContract MZ).
Implicit Types (D source target : ndarray F) (self : AlignClouds F T).
Implicit Types (params x : list F).

(** Of an empty source, the loss is the empty sum. *)
Lemma objective_function_empty_source D self source target params :
  KDTree (cols3 D) = Ok (tree self) -> 3 <= ncols D -> 3 <= ncols target ->
  rows source = [] -> 3 <= ncols source -> 9 <= length params ->
  objective_function self params source target = Ok zero.
Proof.
  intros Ht HkD Hkt Hs Hks Hlen. unfold objective_function.
  rewrite transform_points_Ok by done. rewrite Hs. cbn [mbind result_bind map].
  assert (Hq : query (tree self) (cols3 (Array2 (ncols source) [])) = Ok []).
  { apply (query_no_points (cols3 D)); [done| |done]. cbn [ncols cols3]. lia. }
  rewrite (loss_function_Ok self _ target []); try done.
  cbn [ncols]. lia.
Qed.

(** Of an empty target no row can be read: when the index has answered
    the query, [B[idx, :3]] raises [IndexError]. *)
Lemma objective_function_empty_target D self source target params :
  KDTree (cols3 D) = Ok (tree self) ->
  rows source <> [] -> 3 <= ncols source -> rows target = [] ->
  9 <= length params ->
  exists ts e,
    transform_points source params = Ok ts /\
    objective_function self params source target = Raise e /\
    (query (tree self) (cols3 ts) = Raise e \/
     succeeds (query (tree self) (cols3 ts)) /\ e = IndexError).
Proof.
  intros Ht Hs Hks Htg Hlen. unfold objective_function.
  rewrite transform_points_Ok by done. cbn [mbind result_bind].
  set (ts := Array2 _ _). exists ts. unfold loss_function.
  destruct (query (tree self) (cols3 ts)) as [idx|e] eqn:Hq.
  - exists IndexError. split; [done|]. split; [|right; split; [by eexists|done]].
    cbn [mbind result_bind].
    assert (Hl := query_one_each (cols3 D) (tree self) (cols3 ts) idx Ht Hq).
    unfold nrows, ts in Hl. cbn [rows cols3] in Hl. rewrite !length_map in Hl.
    destruct idx as [|j idx]; [by destruct (rows source)|].
    unfold take_rows3. rewrite Htg. reflexivity.
  - exists e. split; [done|]. split; [done|by left].
Qed.

(** A source of fewer than three columns: the means cannot be subtracted,
    or the first evaluation of the objective cannot multiply. *)
Lemma estimate_transform_narrow_source self source target :
  wf source -> wf target -> ncols source < 3 -> 3 <= ncols target ->
  estimate_transform self source target = Raise ValueError.
Proof.
  intros Hs Ht Hks Hkt. unfold estimate_transform, initial_params.
  rewrite (mean0_cols3 target) by done.
  unfold mean0. rewrite sum0_columns by (by apply wf_cols3).
  cbn [ncols cols3]. rewrite Nat.min_r by lia.
  destruct (ncols source) as [|[|[|k]]] eqn:Hk; [reflexivity| |reflexivity|lia].
  cbn [seq map mbind result_bind]. unfold binop1. cbn [length].
  rewrite bdim_one_r. cbn [mbind result_bind].
  rewrite (minimize_raises _ _ ValueError); [reflexivity|].
  unfold objective_function. rewrite transform_points_narrow; [reflexivity|lia].
Qed.

(** C3 (as the code has it).  Nothing is checked before the minimiser
    runs.  An empty source is accepted: the objective is zero throughout
    and the vector of the minimiser, of twelve scalars, is returned and
    recorded.  With an empty target and a source that is not, the initial
    guess is computed, the minimiser is entered, and the call raises what
    the first evaluation of the objective raises: the exception of the
    index if it refuses the query, [IndexError] from reading the target if
    it answers.  A source of fewer than three columns ends in
    [ValueError]. *)
Theorem estimate_transform_unchecked D self source target :
  KDTree (cols3 D) = Ok (tree self) -> 3 <= ncols D ->
  wf source -> wf target -> 3 <= ncols target ->
  (3 <= ncols source -> rows source = [] ->
     (forall params, 9 <= length params ->
        objective_function self params source target = Ok zero) /\
     exists x, estimate_transform self source target =
                 Ok (x, {| tree := tree self; optimal_params := Some x |}) /\
               length x = 12) /\
  (3 <= ncols source -> rows source <> [] -> rows target = [] ->
     exists x0 ts e,
       initial_params source target = Ok x0 /\
       transform_points source x0 = Ok ts /\
       objective_function self x0 source target = Raise e /\
       estimate_transform self source target = Raise e /\
       (query (tree self) (cols3 ts) = Raise e \/
        succeeds (query (tree self) (cols3 ts)) /\ e = IndexError)) /\
  (ncols source < 3 ->
     estimate_transform self source target = Raise ValueError).
Proof.
  intros Ht HkD Hs Htg Hkt.
  split; [|split]; [| |intros Hks; by apply estimate_transform_narrow_source].
  - intros Hks Hempty.
    assert (H0 := initial_params_centroids source target Hs Htg Hks Hkt).
    set (x0 := _ :: _) in H0.
    split; [intros p Hp; by apply (objective_function_empty_source D)|].
    destruct (minimize_returns
                (fun params => objective_function self params source target) x0)
      as (x & Hx & Hlen).
    { intros p Hp. eexists.
      apply (objective_function_empty_source D); try done.
      rewrite Hp. cbn. lia. }
    exists x. split; [by rewrite (estimate_transform_run _ _ _ x0), Hx|].
    by rewrite Hlen.
  - intros Hks Hne Hempty.
    assert (H0 := initial_params_centroids source target Hs Htg Hks Hkt).
    set (x0 := _ :: _) in H0.
    destruct (objective_function_empty_target D self source target x0)
      as (ts & e & Hts & Hobj & He); try done; [cbn; lia|].
    exists x0, ts, e. split; [done|]. split; [done|]. split; [done|].
    split; [|done].
    rewrite (estimate_transform_run _ _ _ x0) by done.
    by rewrite (minimize_raises _ x0 e).
Qed.
End Unchecked.

(** C3 (counterexample).  An empty source is not refused: the run returns
    what the minimiser returns. *)
Lemma estimate_transform_empty_source_accepted :
  nrows Examples.empty = 0 /\
  succeeds (estimate_transform Examples.self Examples.empty Examples.target) /\
  ~ fails (estimate_transform Examples.self Examples.empty Examples.target).
Proof.
  split; [reflexivity|]. split; [eexists; reflexivity|].
  intros [e He]. discriminate He.
Qed.

(** The three cases, each at a cloud of its own: an empty source, an
    empty target, a source of two columns. *)
Lemma estimate_transform_unchecked_witness :
  ((forall params, 9 <= length params ->
      objective_function Examples.self params Examples.empty Examples.target =
        Ok 0%Z) /\
   exists x, estimate_transform Examples.self Examples.empty Examples.target =
               Ok (x, {| tree := tree Examples.self; optimal_params := Some x |}) /\
             length x = 12) /\
  (exists x0 ts e,
     initial_params Examples.source Examples.empty = Ok x0 /\
     transform_points Examples.source x0 = Ok ts /\
     objective_function Examples.self x0 Examples.source Examples.empty =
       Raise e /\
     estimate_transform Examples.self Examples.source Examples.empty =
       Raise e /\
     (query (tree Examples.self) (cols3 ts) = Raise e \/
      succeeds (query (tree Examples.self) (cols3 ts)) /\ e = IndexError)) /\
  estimate_transform Examples.self Examples2.flat Examples.target =
    Raise ValueError.
Proof.
  assert (Ht : KDTree (cols3 Examples.target) = Ok (tree Examples.self))
    by reflexivity.
  assert (HkD : 3 <= ncols Examples.target) by (simpl; lia).
  assert (Hwt : wf Examples.target) by repeat constructor.
  assert (Hwe : wf Examples.empty) by constructor.
  assert (Hws : wf Examples.source) by repeat constructor.
  assert (Hwf : wf Examples2.flat) by repeat constructor.
  assert (Hke : 3 <= ncols Examples.empty) by (simpl; lia).
  assert (Hks : 3 <= ncols Examples.source) by (simpl; lia).
  assert (Hkf : ncols Examples2.flat < 3) by (simpl; lia).
  assert (Hne : rows Examples.source <> []) by discriminate.
  split; [|split].
  - exact (proj1 (estimate_transform_unchecked scan_index_answers
                    minimize0_contract Examples.target Examples.self
                    Examples.empty Examples.target Ht HkD Hwe Hwt HkD)
             Hke eq_refl).
  - exact (proj1 (proj2 (estimate_transform_unchecked scan_index_answers
                           minimize0_contract Examples.target Examples.self
                           Examples.source Examples.empty Ht HkD Hws Hwe Hke))
             Hks Hne eq_refl).
  - exact (proj2 (proj2 (estimate_transform_unchecked scan_index_answers
                           minimize0_contract Examples.target Examples.self
                           Examples2.flat Examples.target Ht HkD Hwf Hwt HkD))
             Hkf).
Defined.

(** ** What a call that returns has done *)

Section Returned.
Context {F T : Type} {SF : Scalar F} {SI : SpatialIndex F T} {MZ : Minimizer F}.
Context (HM : MinimizerContract MZ) (HD : MinimizerAnswers MZ).
Implicit Types (source target : ndarray F) (self : AlignClouds F T).
Implicit Types (params x : list F).

Lemma bdim_three (k n : nat) : bdim k 3 = Some n -> n = 3.
Proof. unfold bdim. repeat case_decide; intros [= <-]; lia. Qed.

(** Against a source of three columns or more, a guess has twelve
    scalars. *)
Lemma initial_params_length source target x0 :
  wf source -> 3 <= ncols source ->
  initial_params source target = Ok x0 -> length x0 = 12.
Proof.
  intros Hs Hks. unfold initial_params, binop1.
  rewrite (mean0_length (cols3 source)) by (by apply wf_cols3).
  cbn [ncols cols3]. rewrite (Nat.min_l 3 (ncols source)) by done.
  destruct (bdim _ 3) as [n|] eqn:Hn; [|discriminate].
  assert (Hn3 := bdim_three _ _ Hn). subst n.
  cbn [mbind result_bind]. intros [= <-].
  cbn [length]. rewrite length_zip_with, stretch_same.
  rewrite (mean0_length (cols3 source)) by (by apply wf_cols3).
  cbn [ncols cols3]. rewrite (Nat.min_l 3 (ncols source)) by done.
  unfold stretch. case_decide as Hd; [by rewrite Hd|].
  destruct (mean0 (cols3 target)) as [|y l]; [|by rewrite length_replicate].
  unfold bdim in Hn. cbn [length] in Hn. repeat case_decide; done.
Qed.

(** C9 (as the code has it).  A call of [estimate_transform] that returns
    was given a source of three columns or more; the vector returned is
    what the minimiser made of the objective, started at the initial guess
    of twelve scalars, where the objective could be evaluated; it has
    twelve scalars and is recorded on the estimator, whose index is kept;
    the call made again on the estimator left behind, with the same clouds,
    returns the same vector and leaves the same estimator, and so does, as
    to the vector, the call on any estimator holding the same index.  The
    call returns when the objective can be evaluated at every vector of
    twelve scalars and the target has three columns or more. *)
Theorem estimate_transform_returned self source target :
  wf source -> wf target ->
  (forall x self',
     estimate_transform self source target = Ok (x, self') ->
     3 <= ncols source /\
     (exists x0, initial_params source target = Ok x0 /\ length x0 = 12 /\
        succeeds (objective_function self x0 source target) /\
        minimize (fun params => objective_function self params source target)
          x0 = Ok x) /\
     length x = 12 /\ optimal_params self' = Some x /\
     tree self' = tree self /\
     estimate_transform self' source target = Ok (x, self') /\
     forall self2, tree self2 = tree self ->
       returned (estimate_transform self2 source target) = Ok x) /\
  (3 <= ncols target ->
   (forall params, length params = 12 ->
      succeeds (objective_function self params source target)) ->
   succeeds (estimate_transform self source target)).
Proof.
  intros Hs Ht. split.
  - intros x self' Hrun.
    assert (Hrun' := Hrun). unfold estimate_transform in Hrun'.
    destruct (initial_params source target) as [x0|e] eqn:H0; [|discriminate].
    cbn [mbind result_bind] in Hrun'.
    destruct (minimize _ x0) as [x'|e] eqn:Hmin; [|discriminate].
    cbn [mbind result_bind] in Hrun'. injection Hrun' as <- <-.
    assert (Hobj : succeeds (objective_function self x0 source target)).
    { destruct (objective_function self x0 source target) as [v|e] eqn:Hv;
        [by eexists|].
      rewrite (minimize_raises _ x0 e Hv) in Hmin. discriminate. }
    assert (Hks : 3 <= ncols source).
    { destruct (decide (ncols source < 3)) as [Hn|Hn]; [|lia].
      destruct Hobj as [v Hv]. unfold objective_function in Hv.
      rewrite transform_points_narrow in Hv by done. discriminate. }
    assert (Hl0 : length x0 = 12) by (by apply (initial_params_length source target)).
    split; [done|]. split; [by exists x0|].
    split; [by rewrite (minimize_dimension _ _ _ Hmin)|].
    split; [done|]. split; [done|]. split.
    + rewrite (estimate_transform_run _ _ _ x0) by done. cbn [tree].
      change (fun params => objective_function _ params source target)
        with (fun params => objective_function self params source target).
      by rewrite Hmin.
    + intros self2 Hself2.
      by rewrite (estimate_transform_same_tree self self2), Hrun.
  - intros Hkt Htot.
    assert (Hks : 3 <= ncols source).
    { destruct (decide (ncols source < 3)) as [Hn|Hn]; [|lia].
      destruct (Htot (replicate 12 zero)) as [v Hv]; [reflexivity|].
      unfold objective_function in Hv.
      rewrite transform_points_narrow in Hv by done. discriminate. }
    assert (H0 := initial_params_centroids source target Hs Ht Hks Hkt).
    set (x0 := _ :: _) in H0.
    destruct (minimize_returns
                (fun params => objective_function self params source target) x0)
      as (x & Hx & _).
    { intros p Hp. apply Htot. by rewrite Hp. }
    eexists. by rewrite (estimate_transform_run _ _ _ x0), Hx.
Qed.
End Returned.

(** C9 (counterexample).  The call does not always return: on an
    estimator built from three points, with the last of them as source and
    as target, the index answers row 2 and the target has one row. *)
Lemma estimate_transform_index_error :
  __init__ Examples3.three = Ok Examples3.self /\
  estimate_transform Examples3.self Examples3.single Examples3.single =
    Raise IndexError /\
  ~ succeeds
      (estimate_transform Examples3.self Examples3.single Examples3.single).
Proof.
  split; [reflexivity|]. split; [reflexivity|].
  intros [r Hr]. discriminate Hr.
Qed.

(** A call that returns, and the call made again. *)
Lemma estimate_transform_returned_witness :
  let x := [1; 0; 0; 0; 1; 0; 0; 0; 1; 1; 1; 1]%Z in
  let self' := {| tree := Examples.target; optimal_params := Some x |} in
  estimate_transform Examples.self Examples.source Examples.target =
    Ok (x, self') /\
  (3 <= ncols Examples.source /\
   (exists x0, initial_params Examples.source Examples.target = Ok x0 /\
      length x0 = 12 /\
      succeeds (objective_function Examples.self x0
                  Examples.source Examples.target) /\
      minimize (fun params => objective_function Examples.self params
                                Examples.source Examples.target) x0 = Ok x) /\
   length x = 12 /\ optimal_params self' = Some x /\
   tree self' = tree Examples.self /\
   estimate_transform self' Examples.source Examples.target = Ok (x, self') /\
   forall self2, tree self2 = tree Examples.self ->
     returned (estimate_transform self2 Examples.source Examples.target) =
       Ok x) /\
  succeeds (estimate_transform Examples.self Examples.source Examples.target).
Proof.
  intros x self'.
  assert (Hs : wf Examples.source) by repeat constructor.
  assert (Ht : wf Examples.target) by repeat constructor.
  assert (Hkt : 3 <= ncols Examples.target) by (simpl; lia).
  assert (Hrun : estimate_transform Examples.self Examples.source
                   Examples.target = Ok (x, self')) by reflexivity.
  assert (Htot : forall params, length params = 12 ->
            succeeds (objective_function Examples.self params
                        Examples.source Examples.target)).
  { intros params Hp.
    apply (objective_function_total (scan_index_contract Z_ordered_ring_laws)
             Examples.target); first [done | simpl; lia | rewrite Hp; lia]. }
  split; [exact Hrun|]. split.
  - exact (proj1 (estimate_transform_returned minimize0_contract
                    minimize0_answers Examples.self Examples.source
                    Examples.target Hs Ht) x self' Hrun).
  - exact (proj2 (estimate_transform_returned minimize0_contract
                    minimize0_answers Examples.self Examples.source
                    Examples.target Hs Ht) Hkt Htot).
Defined.

(** * Further properties of the code *)

(** ** [transform_points]: which calls return, and on what they depend *)

Section TransformMore.
Context {F : Type} {SF : Scalar F}.
Implicit Types (P Q : ndarray F) (params p q : list F).

(** X1. [transform_points] returns exactly when it is given at least nine
    parameters and a cloud of at least three columns; every other call
    raises [ValueError], and no call raises anything else. *)
Theorem transform_points_outcome P params :
  (succeeds (transform_points P params) <->
     9 <= length params /\ 3 <= ncols P) /\
  (transform_points P params = Raise ValueError <->
     length params < 9 \/ ncols P < 3) /\
  transform_points P params <> Raise IndexError.
Proof.
  destruct (decide (length params < 9)) as [Hs|Hs].
  { rewrite transform_points_short by done. split; [|split]; [| |done].
    - split; [intros [Q HQ]; discriminate|lia].
    - split; [by left|done]. }
  destruct (decide (ncols P < 3)) as [Hn|Hn].
  { rewrite transform_points_narrow by done. split; [|split]; [| |done].
    - split; [intros [Q HQ]; discriminate|lia].
    - split; [by right|done]. }
  rewrite transform_points_Ok by lia. split; [|split]; [| |done].
  - split; [lia|]. intros _. by eexists.
  - split; [discriminate|lia].
Qed.

(** X2. Of a parameter vector of nine scalars or more, only the first nine
    and the last three are read: the call is the call on the vector of
    twelve made of them, whatever lies between. *)
Theorem transform_points_reads_ends P params :
  9 <= length params ->
  transform_points P params =
  transform_points P (take 9 params ++ drop (length params - 3) params).
Proof.
  intros Hlen.
  assert (H9 : length (take 9 params) = 9) by (rewrite length_take; lia).
  assert (H3 : length (drop (length params - 3) params) = 3)
    by (rewrite length_drop; lia).
  destruct (decide (ncols P < 3)) as [Hn|Hn].
  { by rewrite !transform_points_narrow. }
  rewrite !transform_points_Ok by (rewrite ?length_app; lia).
  rewrite length_app, H9, H3, take_app_length' by done.
  change (9 + 3 - 3) with 9. by rewrite drop_app_length' by done.
Qed.
End TransformMore.

Lemma transform_points_reads_ends_witness :
  transform_points Examples.cloud Examples.params13 =
  transform_points Examples.cloud
    (take 9 Examples.params13 ++
     drop (length Examples.params13 - 3) Examples.params13).
Proof.
  apply (transform_points_reads_ends Examples.cloud Examples.params13).
  simpl. lia.
Defined.

(** ** [transform_points] on the store, whatever the outcome *)

(** X3. Whether the call returns or raises, every object the store held
    before it, the input among them, holds the same array after it. *)
Theorem store_transform_points_unchanged {F : Type} {SF : Scalar F}
    (σ : gmap Store.loc (ndarray F)) (points : Store.loc) (params : list F)
    (a : Store.loc) (x : ndarray F) :
  σ !! a = Some x ->
  (Store.transform_points points params σ).2 !! a = Some x.
Proof.
  intros Ha.
  destruct (Store.transform_points points params σ) as [r σ'] eqn:Hrun.
  by apply (store_transform_points_frame σ points params r σ' a x).
Qed.

(** The theorem at a call that raises, for want of parameters. *)
Lemma store_transform_points_unchanged_witness :
  (Store.transform_points 1%positive [1; 0; 0; 0; 1; 0; 0; 0]%Z
     Examples.store).2 !! 1%positive = Some Examples.cloud.
Proof.
  apply (store_transform_points_unchanged Examples.store 1%positive
           [1; 0; 0; 0; 1; 0; 0; 0]%Z 1%positive Examples.cloud).
  reflexivity.
Defined.

(** ** [loss_function]: what it reads, when it raises, its sign *)

Section LossMore.
Context {F T : Type} {SF : Scalar F} {SI : SpatialIndex F T}.
Implicit Types (A B : ndarray F) (self : AlignClouds F T) (idx : list nat).

Lemma cols3_cols3 A : cols3 (cols3 A) = cols3 A.
Proof.
  unfold cols3. cbn [ncols rows]. f_equal; [lia|].
  rewrite map_map. apply map_ext. intros r. by rewrite take_take.
Qed.

Lemma mapM_lookup_fmap {X Y} (f : X -> Y) (l : list X) idx :
  mapM (fun j => (map f l) !! j) idx = map f <$> mapM (fun j => l !! j) idx.
Proof.
  induction idx as [|j idx IH]; [reflexivity|].
  cbn [mapM]. rewrite IH. change (map f l !! j) with ((f <$> l) !! j).
  rewrite list_lookup_fmap.
  destruct (l !! j); [|reflexivity]. cbn.
  destruct (mapM (fun j0 => l !! j0) idx); reflexivity.
Qed.

Lemma take_rows3_cols3 B idx : take_rows3 (cols3 B) idx = take_rows3 B idx.
Proof.
  unfold take_rows3. cbn [rows cols3 ncols]. rewrite mapM_lookup_fmap.
  destruct (mapM (fun j => rows B !! j) idx) as [rs|]; [|reflexivity].
  cbn [fmap option_fmap option_map]. f_equal. f_equal; [lia|].
  rewrite map_map. apply map_ext. intros r. by rewrite take_take.
Qed.

(** X4. The loss reads the first three columns only: columns beyond the
    third, of either argument, have no influence on it, be it a value or
    an exception. *)
Theorem loss_function_first_columns self A B :
  loss_function self A B = loss_function self (cols3 A) (cols3 B).
Proof.
  unfold loss_function. rewrite cols3_cols3.
  destruct (query (tree self) (cols3 A)) as [idx|e]; [|reflexivity].
  cbn [mbind result_bind]. by rewrite take_rows3_cols3.
Qed.

(** X5. The index answers with row numbers of the cloud it was built from,
    and the rows are read from the second argument: when an answer is not a
    row number of that argument, the loss raises [IndexError]. *)
Theorem loss_function_index_error self A B idx j :
  query (tree self) (cols3 A) = Ok idx -> j ∈ idx -> nrows B <= j ->
  loss_function self A B = Raise IndexError.
Proof.
  intros Hq Hj Hn. unfold loss_function. rewrite Hq. cbn [mbind result_bind].
  unfold take_rows3.
  assert (E : mapM (fun j => rows B !! j) idx = None).
  { apply mapM_None, Exists_exists. exists j. split; [done|].
    by apply lookup_ge_None_2. }
  by rewrite E.
Qed.
End LossMore.

Lemma loss_function_index_error_witness :
  loss_function Examples.self Examples.source (Array2 3 [[0; 0; 0]]%Z) =
    Raise IndexError.
Proof.
  apply (loss_function_index_error Examples.self Examples.source
           (Array2 3 [[0; 0; 0]]%Z) [0; 1] 1).
  - reflexivity.
  - apply list_elem_of_In. simpl. auto.
  - unfold nrows. simpl. lia.
Defined.

Section Sign.
Context {F T : Type} {SF : Scalar F} {SI : SpatialIndex F T}.
Hypothesis exact : ordered_ring_laws F.

Lemma vsum_nonneg (l : list F) : Forall (le zero) l -> le zero (vsum l).
Proof.
  induction 1 as [|x l Hx _ IH]; [by apply le_refl|].
  rewrite (vsum_cons (SORrt exact)). by apply (Rplus_nonneg_nonneg exact).
Qed.

Lemma vsum_power2_nonneg (d : ndarray F) :
  le zero (vsum (flatten (power2 d))).
Proof.
  apply vsum_nonneg. unfold flatten, power2. cbn [rows].
  apply Forall_concat, Forall_map, Forall_true. intros r.
  apply Forall_map, Forall_true. intros x. cbv beta.
  apply (Rtimes_square_nonneg exact).
Qed.

Lemma loss_function_nonneg (self : AlignClouds F T) (A B : ndarray F) v :
  loss_function self A B = Ok v -> le zero v.
Proof.
  unfold loss_function.
  destruct (query (tree self) (cols3 A)) as [idx|e]; [|discriminate].
  cbn [mbind result_bind].
  destruct (take_rows3 B idx) as [picked|e]; [|discriminate].
  cbn [mbind result_bind].
  destruct (binop sub (cols3 A) picked) as [d|e]; [|discriminate].
  cbn [mbind result_bind]. intros [= <-]. apply vsum_power2_nonneg.
Qed.

(** X6. The objective is never negative: whatever the parameters, the
    clouds and the index, a value it returns is at least zero. *)
Theorem objective_function_nonneg (self : AlignClouds F T)
    (params : list F) (source target : ndarray F) v :
  objective_function self params source target = Ok v -> le zero v.
Proof.
  unfold objective_function.
  destruct (transform_points source params) as [ts|e]; [|discriminate].
  cbn [mbind result_bind]. apply loss_function_nonneg.
Qed.
End Sign.

Lemma objective_function_nonneg_witness :
  le 0%Z 2506%Z.
Proof.
  apply (objective_function_nonneg Z_ordered_ring_laws Examples.self
           Examples.params12 Examples.source Examples.target 2506%Z).
  reflexivity.
Defined.

(** ** [transform_points] composes *)

Section ComposeFacts.
Context {F : Type} {SF : Scalar F}.
Hypothesis exact : ring_laws F.
Implicit Types (P Q : ndarray F) (a b p : list F).

Add Ring scalar_ring_c : (exact : ring_theory zero one add mul sub opp (@eq F)).

Lemma affine_row_compose a b p :
  length a = 12 -> length b = 12 -> 3 <= length p ->
  affine_row (take 9 b) (drop (length b - 3) b)
    (affine_row (take 9 a) (drop (length a - 3) a) p ++ drop 3 p) ++
  drop 3 (affine_row (take 9 a) (drop (length a - 3) a) p ++ drop 3 p) =
  affine_row (take 9 (compose_params b a))
    (drop (length (compose_params b a) - 3) (compose_params b a)) p ++ drop 3 p.
Proof.
  intros Ha Hb Hp. rewrite Ha, Hb.
  do 12 (destruct a as [|? a]; [discriminate Ha|]). destruct a; [|discriminate Ha].
  do 12 (destruct b as [|? b]; [discriminate Hb|]). destruct b; [|discriminate Hb].
  do 3 (destruct p as [|? p]; [simpl in Hp; lia|]).
  cbn. rewrite !take_0, !drop_0. cbn.
  f_equal; [|f_equal; [|f_equal]]; ring.
Qed.

(** X7. Transforming by [a] and then by [b] is transforming once by the
    composed parameters: the product of the two matrices, and the
    translation of [a] carried through [b] plus that of [b]. *)
Theorem transform_points_compose P a b :
  wf P -> 3 <= ncols P -> length a = 12 -> length b = 12 ->
  (Q ← transform_points P a; transform_points Q b) =
  transform_points P (compose_params b a).
Proof.
  intros HP HK Ha Hb.
  rewrite (transform_points_Ok P a) by lia. cbn [mbind result_bind].
  rewrite transform_points_Ok by (cbn [ncols]; lia).
  rewrite (transform_points_Ok P (compose_params b a)) by (cbn; lia).
  cbn [ncols rows]. f_equal. f_equal. rewrite map_map.
  apply map_ext_Forall. eapply Forall_impl; [exact HP|]. cbv beta.
  intros p Hp. apply affine_row_compose; [done|done|lia].
Qed.

(** X8. Round trip: when the parameters [b] undo the parameters [a], their
    composition being the identity parameters, transforming by [a] and
    then by [b] gives back the cloud, all columns included. *)
Theorem transform_points_round_trip P a b :
  wf P -> 3 <= ncols P -> length a = 12 -> length b = 12 ->
  compose_params b a = identity_params ->
  (Q ← transform_points P a; transform_points Q b) = Ok P.
Proof.
  intros HP HK Ha Hb Hinv.
  rewrite (transform_points_Ok P a) by lia. cbn [mbind result_bind].
  rewrite transform_points_Ok by (cbn [ncols]; lia).
  destruct P as [k rs]. cbn [ncols rows] in *. f_equal. f_equal.
  rewrite map_map. rewrite <- (map_id rs) at 2.
  apply map_ext_Forall. eapply Forall_impl; [exact HP|]. cbv beta.
  cbn [ncols]. intros p Hp.
  rewrite affine_row_compose, Hinv by (done || lia).
  apply (affine_row_identity exact). lia.
Qed.
End ComposeFacts.

Lemma transform_points_compose_witness :
  (Q ← transform_points Examples.cloud Examples.params12;
   transform_points Q Examples2.shift) =
  transform_points Examples.cloud
    (compose_params Examples2.shift Examples.params12).
Proof.
  apply (transform_points_compose Z_ring_laws Examples.cloud
           Examples.params12 Examples2.shift).
  - repeat constructor.
  - simpl. lia.
  - reflexivity.
  - reflexivity.
Defined.

Lemma transform_points_round_trip_witness :
  (Q ← transform_points Examples.cloud Examples2.shift;
   transform_points Q Examples2.unshift) = Ok Examples.cloud.
Proof.
  apply (transform_points_round_trip Z_ring_laws Examples.cloud
           Examples2.shift Examples2.unshift).
  - repeat constructor.
  - simpl. lia.
  - reflexivity.
  - reflexivity.
  - reflexivity.
Defined.

(** ** The objective at parameters that map the source onto the target *)

Section Overlap.
Context {F T : Type} {SF : Scalar F} {SI : SpatialIndex F T}.
Context (HI : IndexContract SI).
Hypothesis exact : ordered_ring_laws F.
Implicit Types (A D source target : ndarray F) (self : AlignClouds F T).

(** When every point asked for coincides with a row of the cloud of the
    index, the loss against that cloud is zero. *)
Lemma loss_function_overlap D self A :
  KDTree (cols3 D) = Ok (tree self) -> wf D -> wf A -> rows D <> [] ->
  min 3 (ncols A) = min 3 (ncols D) ->
  (forall a, a ∈ rows A -> exists d, d ∈ rows D /\ take 3 d = take 3 a) ->
  loss_function self A D = Ok zero.
Proof.
  intros Ht HD HA Hne Hk Hover.
  destruct (query_length (cols3 D) (tree self) (cols3 A)) as (idx & Hq & Hlen);
    [done|done|].
  assert (Hlen' : length idx = nrows A)
    by (rewrite Hlen; unfold nrows; cbn [rows cols3]; by rewrite length_map).
  assert (Hx : wf (cols3 A)) by (by apply wf_cols3).
  rewrite (loss_function_chamfer (SORrt exact) self A D idx); try done.
  2:{ by apply (query_in_range HI D self (cols3 A) idx). }
  f_equal. apply (vsum_zero (SORrt exact)), Forall_lookup. intros i z Hz.
  apply lookup_zip_with_Some in Hz as (a & j & -> & Ha & Hj).
  destruct (query_nearest_rows HI D self (cols3 A) idx i (take 3 a) j)
    as (c & Hc & Hmin); try done.
  { cbn [rows cols3]. by rewrite list_lookup_fmap, Ha. }
  rewrite (nth_lookup_Some _ _ _ _ Hc).
  destruct (Hover a) as (d & Hd & Hda); [by eapply list_elem_of_lookup_2|].
  apply (Rle_antisymm exact); [|by apply sqdist_nonneg].
  assert (E : sqdist (take 3 a) (take 3 d) = zero)
    by (rewrite Hda; apply (sqdist_self (SORrt exact))).
  rewrite <- E. by apply Hmin.
Qed.

(** Parameters that map every source point onto some target point give
    the objective the value zero. *)
Lemma objective_function_onto self source target params :
  KDTree (cols3 target) = Ok (tree self) ->
  wf source -> wf target -> rows target <> [] ->
  3 <= ncols source -> 3 <= ncols target -> length params = 12 ->
  (forall p, p ∈ rows source ->
     exists d, d ∈ rows target /\ take 3 d = affine_point params p) ->
  objective_function self params source target = Ok zero.
Proof.
  intros Hinit Hs Htg Hne Hks Hkt Hlen Hmap.
  unfold objective_function. rewrite transform_points_Ok by lia.
  cbn [mbind result_bind]. apply loss_function_overlap; try done.
  - unfold wf. cbn [rows ncols]. apply Forall_map.
    eapply Forall_impl; [exact Hs|]. cbv beta. intros p Hp.
    rewrite length_app, affine_row_length, length_drop; [lia|].
    rewrite length_drop. lia.
  - cbn [ncols]. lia.
  - cbn [rows]. intros a (p & -> & Hp)%list_elem_of_fmap.
    destruct (Hmap p Hp) as (d & Hd & Hdp). exists d. split; [done|].
    rewrite take_app_length'.
    + rewrite affine_row_point; [done|done|].
      rewrite (Forall_forall (fun r => length r = ncols source) (rows source)) in Hs.
      by rewrite (Hs p).
    + rewrite affine_row_length; [done|]. rewrite length_drop. lia.
Qed.

(** X9. Parameters that map every source point onto some target point
    give the objective the value zero, its least value: for the estimator
    built from the target, an exact alignment is a global minimum. *)
Theorem objective_function_exact self source target params :
  __init__ target = Ok self -> wf source -> wf target -> rows target <> [] ->
  3 <= ncols source -> 3 <= ncols target -> length params = 12 ->
  (forall p, p ∈ rows source ->
     exists d, d ∈ rows target /\ take 3 d = affine_point params p) ->
  objective_function self params source target = Ok zero /\
  forall params' v,
    objective_function self params' source target = Ok v -> le zero v.
Proof.
  intros Hinit Hs Htg Hne Hks Hkt Hlen Hmap. apply init_tree in Hinit.
  split; [by apply objective_function_onto|].
  intros params' v. unfold objective_function.
  destruct (transform_points source params') as [ts|e]; [|discriminate].
  cbn [mbind result_bind]. by apply loss_function_nonneg.
Qed.
End Overlap.

(** The theorem at the source moved by [(5, 0, 0)]. *)
Lemma objective_function_exact_witness :
  objective_function Examples2.self Examples2.shift
    Examples.source Examples2.shifted = Ok 0%Z /\
  forall params' v,
    objective_function Examples2.self params'
      Examples.source Examples2.shifted = Ok v -> le 0%Z v.
Proof.
  apply (objective_function_exact (scan_index_contract Z_ordered_ring_laws)
           Z_ordered_ring_laws Examples2.self Examples.source
           Examples2.shifted Examples2.shift).
  - reflexivity.
  - repeat constructor.
  - repeat constructor.
  - discriminate.
  - simpl. lia.
  - simpl. lia.
  - reflexivity.
  - intros p Hp. apply list_elem_of_In in Hp. simpl in Hp.
    destruct Hp as [<-|[<-|[]]].
    + exists [6; 0; 0]%Z. split; [apply list_elem_of_In; simpl; auto|reflexivity].
    + exists [8; 4; 4]%Z. split; [apply list_elem_of_In; simpl; auto|reflexivity].
Defined.

(** ** The initial guess for a target that is the source moved *)

Section Translation.
Context {F : Type} {SF : Scalar F}.
Hypothesis exact : field_laws F.
Implicit Types (a source : ndarray F) (t p : list F).

Add Ring scalar_ring_t :
  (field_ring exact : ring_theory zero one add mul sub opp (@eq F)).

Lemma vsum_map_add (c : F) (l : list F) :
  vsum (map (fun x => add x c) l) = add (vsum l) (mul (of_nat (length l)) c).
Proof.
  induction l as [|x l IH].
  - cbn. rewrite (of_nat_0 exact). ring.
  - cbn [map length]. rewrite !(vsum_cons (field_ring exact)), IH.
    rewrite (of_nat_S exact). ring.
Qed.

Lemma wf_translated t a : wf a -> 3 <= ncols a -> length t = 3 -> wf (translated t a).
Proof.
  intros Ha Hk Ht. unfold wf, translated. cbn [rows ncols]. apply Forall_map.
  eapply Forall_impl; [exact Ha|]. cbv beta. intros p Hp.
  rewrite length_app, length_zip_with, length_take, length_drop. lia.
Qed.

Lemma column_translated t a j :
  wf a -> 3 <= ncols a -> length t = 3 -> j < 3 ->
  column j (translated t a) = map (fun x => add x (nth j t zero)) (column j a).
Proof.
  intros Ha Hk Ht Hj. unfold column, translated. cbn [rows]. rewrite !map_map.
  apply map_ext_Forall. eapply Forall_impl; [exact Ha|]. cbv beta.
  intros p Hp.
  do 3 (destruct p as [|? p]; [simpl in Hp; lia|]).
  do 3 (destruct t as [|? t]; [discriminate Ht|]).
  destruct j as [|[|[|j]]]; [reflexivity..|lia].
Qed.

Lemma centroid_translated t a j :
  wf a -> 3 <= ncols a -> length t = 3 -> j < 3 -> rows a <> [] ->
  centroid (translated t a) j = add (centroid a j) (nth j t zero).
Proof.
  intros Ha Hk Ht Hj Hne. unfold centroid.
  rewrite column_translated, vsum_map_add by done.
  unfold column, translated, nrows. cbn [rows]. rewrite !length_map.
  destruct (rows a) as [|r rs] eqn:Hr; [done|]. cbn [length].
  set (n := of_nat (S (length rs))). set (s := vsum _). set (c := nth j t zero).
  rewrite (div_mul_inv exact (add s (mul n c)) n), (div_mul_inv exact s n).
  assert (Hi : mul (div one n) n = one)
    by (apply (inv_mul exact), (of_nat_S_nonzero exact)).
  transitivity (add (mul s (div one n)) (mul c (mul (div one n) n))); [ring|].
  rewrite Hi. ring.
Qed.

Lemma transform_points_moved source t :
  wf source -> 3 <= ncols source -> length t = 3 ->
  transform_points source
    ([one; zero; zero; zero; one; zero; zero; zero; one] ++ t) =
    Ok (translated t source).
Proof.
  intros Hs Hk Ht.
  rewrite transform_points_Ok by (rewrite ?length_app; cbn; lia).
  unfold translated. f_equal. f_equal.
  apply map_ext_Forall. eapply Forall_impl; [exact Hs|]. cbv beta.
  intros p Hp. f_equal.
  do 3 (destruct p as [|? p]; [simpl in Hp; lia|]).
  do 3 (destruct t as [|? t]; [discriminate Ht|]).
  destruct t; [|discriminate Ht].
  cbn. rewrite !take_0. cbn. f_equal; [|f_equal; [|f_equal]]; ring.
Qed.

Lemma initial_params_moved source t :
  wf source -> 3 <= ncols source -> rows source <> [] -> length t = 3 ->
  initial_params source (translated t source) =
    Ok ([one; zero; zero; zero; one; zero; zero; zero; one] ++ t).
Proof.
  intros Hs Hk Hne Ht.
  rewrite initial_params_centroids;
    [|done|by apply wf_translated|done|cbn [ncols translated]; lia].
  rewrite !centroid_translated by (done || lia).
  do 3 (destruct t as [|? t]; [discriminate Ht|]).
  destruct t; [|discriminate Ht].
  cbn [nth app]. f_equal. do 9 f_equal.
  f_equal; [|f_equal; [|f_equal]]; ring.
Qed.

(** X10. When the target is the source moved by [t], which is what
    [transform_points] makes of the source with the identity matrix and
    the translation [t], the initial guess of [estimate_transform] is
    exactly these parameters. *)
Theorem initial_params_translated source t :
  wf source -> 3 <= ncols source -> rows source <> [] -> length t = 3 ->
  transform_points source
    ([one; zero; zero; zero; one; zero; zero; zero; one] ++ t) =
    Ok (translated t source) /\
  initial_params source (translated t source) =
    Ok ([one; zero; zero; zero; one; zero; zero; zero; one] ++ t).
Proof.
  intros Hs Hk Hne Ht. split.
  - by apply transform_points_moved.
  - by apply initial_params_moved.
Qed.
End Translation.

(** The rationals are a field. *)
Lemma Qc_field_laws : field_laws Qc.
Proof.
  split.
  - exact Qcrt.
  - intros x y. cbn. unfold Qcdiv. ring.
  - intros y Hy. cbn. unfold Qcdiv. rewrite Qcmult_1_l. by apply Qcmult_inv_l.
  - reflexivity.
  - intros n. cbn. apply Qc_is_canon. cbn.
    rewrite !Qred_correct, Nat2Z.inj_succ, <- Z.add_1_l, inject_Z_plus.
    reflexivity.
  - intros n. cbn. intros H. change 0%Qc with (Q2Qc 0) in H.
    apply Q2Qc_eq_iff in H. unfold Qeq in H. cbn in H. lia.
Qed.

Lemma initial_params_translated_witness :
  transform_points Examples2.cloudQ
    ([one; zero; zero; zero; one; zero; zero; zero; one] ++ Examples2.move) =
    Ok Examples2.movedQ /\
  initial_params Examples2.cloudQ Examples2.movedQ =
    Ok ([one; zero; zero; zero; one; zero; zero; zero; one] ++ Examples2.move).
Proof.
  apply (initial_params_translated Qc_field_laws Examples2.cloudQ Examples2.move).
  - repeat constructor.
  - simpl. lia.
  - discriminate.
  - reflexivity.
Defined.

(** ** The initial guess when the source has fewer than three columns *)

Section Columns.
Context {F T : Type} {SF : Scalar F} {SI : SpatialIndex F T} {MZ : Minimizer F}.
Implicit Types (source target : ndarray F) (self : AlignClouds F T).

(** X11. The two means are subtracted under numpy's broadcasting.  Against
    a target of three columns or more, a source of two columns, or of
    none, makes the subtraction raise [ValueError], before the minimiser,
    whichever it is, is called; a source of one column is stretched: the
    guess has twelve scalars, its translation being the target's centroid
    minus, in each coordinate, the mean of the single column. *)
Theorem estimate_transform_columns self source target :
  wf source -> wf target -> 3 <= ncols target ->
  (ncols source = 0 \/ ncols source = 2 ->
     initial_params source target = Raise ValueError /\
     estimate_transform self source target = Raise ValueError) /\
  (ncols source = 1 ->
     initial_params source target =
       Ok [one; zero; zero; zero; one; zero; zero; zero; one;
           sub (centroid target 0) (centroid source 0);
           sub (centroid target 1) (centroid source 0);
           sub (centroid target 2) (centroid source 0)]).
Proof.
  intros Hs Ht Hkt.
  assert (Hm : forall k, ncols source = k -> k < 3 ->
            length (mean0 (cols3 source)) = k).
  { intros k Hk Hlt. rewrite mean0_length by (by apply wf_cols3).
    cbn [ncols cols3]. lia. }
  split.
  - intros Hk.
    assert (H0 : initial_params source target = Raise ValueError).
    { unfold initial_params. rewrite (mean0_cols3 target) by done.
      unfold binop1, bdim. cbn [length].
      destruct Hk as [Hk|Hk]; rewrite (Hm _ Hk) by lia; reflexivity. }
    split; [done|]. unfold estimate_transform. by rewrite H0.
  - intros Hk. unfold initial_params. rewrite (mean0_cols3 target) by done.
    unfold mean0. rewrite sum0_columns by (by apply wf_cols3).
    cbn [ncols cols3]. rewrite Hk. cbn [seq map Nat.min].
    rewrite column_cols3 by lia. unfold nrows. cbn [rows cols3].
    rewrite length_map. reflexivity.
Qed.
End Columns.

Lemma estimate_transform_columns_witness :
  (ncols Examples2.flat = 0 \/ ncols Examples2.flat = 2 ->
     initial_params Examples2.flat Examples.target = Raise ValueError /\
     estimate_transform Examples.self Examples2.flat Examples.target =
       Raise ValueError) /\
  (ncols Examples2.flat = 1 ->
     initial_params Examples2.flat Examples.target =
       Ok [one; zero; zero; zero; one; zero; zero; zero; one;
           sub (centroid Examples.target 0) (centroid Examples2.flat 0);
           sub (centroid Examples.target 1) (centroid Examples2.flat 0);
           sub (centroid Examples.target 2) (centroid Examples2.flat 0)]).
Proof.
  apply (estimate_transform_columns Examples.self Examples2.flat Examples.target).
  - repeat constructor.
  - repeat constructor.
  - simpl. lia.
Defined.

Example initial_params_line :
  initial_params Examples2.line Examples.target =
    Ok [1; 0; 0; 0; 1; 0; 0; 0; 1; 1; 1; 1]%Z.
Proof. reflexivity. Qed.

(** ** A target that is the source moved: where the minimiser starts *)

Section Recover.
Context {F T : Type} {SF : Scalar F} {SI : SpatialIndex F T}.
Context (HI : IndexContract SI).
Hypothesis field : field_laws F.
Hypothesis exact : ordered_ring_laws F.
Implicit Types (source : ndarray F) (self : AlignClouds F T) (t : list F).

Add Ring scalar_ring_r :
  (SORrt exact : ring_theory zero one add mul sub opp (@eq F)).

End Recover.


